(** * Alert manager and radio link guard: a shallow embedding

    The two firmware modules [Engine/Firmware/ALERT.c] and
    [Engine/Firmware/RADIO.c] are embedded as programs of a small state
    monad.  The state of each module is made of its [static] variables
    together with a chronological log of the calls it made to the platform
    hooks (the functions the C files only declare).  Everything observable
    about a module -- which indicator is lit, how many telemetry frames
    were sent, what buffer the transceiver was handed -- is read off that
    log. *)

From Stdlib Require Import ZArith NArith List Bool Lia Sorted.
From Stdlib Require Import Strings.Byte.
Import ListNotations.

(** ** A state monad for code that threads module state *)

Section StateMonad.
Variable St : Type.

Definition State (A : Type) : Type := St -> A * St.

Definition ret {A} (a : A) : State A := fun s => (a, s).

Definition bind {A B} (c : State A) (k : A -> State B) : State B :=
  fun s => let (a, s') := c s in k a s'.

Definition gets {A} (f : St -> A) : State A := fun s => (f s, s).

Definition modify (f : St -> St) : State unit := fun s => (tt, f s).

(** The state left by a computation, and the value it returns. *)
Definition exec {A} (c : State A) (s : St) : St := snd (c s).
Definition eval {A} (c : State A) (s : St) : A := fst (c s).
End StateMonad.

Arguments ret {St A} a.
Arguments bind {St A B} c k.
Arguments gets {St A} f.
Arguments modify {St} f.
Arguments exec {St A} c s.
Arguments eval {St A} c s.

Declare Scope state_scope.
Delimit Scope state_scope with state.
Notation "x <- c1 ;; c2" := (bind c1 (fun x => c2))
  (at level 61, c1 at next level, right associativity) : state_scope.
Notation "c1 ;; c2" := (bind c1 (fun _ => c2))
  (at level 61, right associativity) : state_scope.

(** ** ALERT.c *)

Module ALERT.
Local Open Scope Z_scope.
Local Open Scope state_scope.

(** [alert_level_t] and [alert_code_t] are C enumerations, that is integer
    types: a caller can pass any value of the underlying type, so levels and
    codes are integers and the enumerators are named constants. *)
Definition alert_level_t : Type := Z.
Definition ALERT_INFO : alert_level_t := 0.
Definition ALERT_WARNING : alert_level_t := 1.
Definition ALERT_CRITICAL : alert_level_t := 2.

Definition alert_code_t : Type := Z.
Definition ALERT_NONE : alert_code_t := 0.
Definition ALERT_SENSOR_FAIL : alert_code_t := 1.
Definition ALERT_OVER_TEMPERATURE : alert_code_t := 2.
Definition ALERT_OVER_PRESSURE : alert_code_t := 3.
Definition ALERT_ENGINE_FAULT : alert_code_t := 4.
Definition ALERT_COMMUNICATION_LOSS : alert_code_t := 5.

(** One constructor per hook declared by the C file, carrying the
    arguments of the call. *)
Inductive alert_hook : Type :=
| Hw_led_info (on : bool)
| Hw_led_warning (on : bool)
| Hw_led_critical (on : bool)
| Telemetry_send_alert (level : alert_level_t) (code : alert_code_t).

(** The two statics of the module and the hook calls made so far, oldest
    first. *)
Record alert_state : Type := {
  current_level : alert_level_t;
  current_code : alert_code_t;
  alert_log : list alert_hook
}.

(** The static initialisers of the C file; no hook has been called yet. *)
Definition alert_power_on : alert_state :=
  {| current_level := ALERT_INFO;
     current_code := ALERT_NONE;
     alert_log := [] |}.

Definition AlertM : Type -> Type := State alert_state.

Definition set_current_level (l : alert_level_t) : AlertM unit :=
  modify (fun s => {| current_level := l;
                      current_code := current_code s;
                      alert_log := alert_log s |}).

Definition set_current_code (c : alert_code_t) : AlertM unit :=
  modify (fun s => {| current_level := current_level s;
                      current_code := c;
                      alert_log := alert_log s |}).

Definition call (e : alert_hook) : AlertM unit :=
  modify (fun s => {| current_level := current_level s;
                      current_code := current_code s;
                      alert_log := alert_log s ++ [e] |}).

Definition hw_led_info (on : bool) : AlertM unit := call (Hw_led_info on).
Definition hw_led_warning (on : bool) : AlertM unit := call (Hw_led_warning on).
Definition hw_led_critical (on : bool) : AlertM unit :=
  call (Hw_led_critical on).
Definition telemetry_send_alert (level : alert_level_t) (code : alert_code_t)
  : AlertM unit := call (Telemetry_send_alert level code).

(** *** Internal helpers *)

Definition alert_clear_outputs : AlertM unit :=
  hw_led_info false ;;
  hw_led_warning false ;;
  hw_led_critical false.

Definition alert_set_outputs (level : alert_level_t) : AlertM unit :=
  alert_clear_outputs ;;
  if level =? ALERT_INFO then hw_led_info true
  else if level =? ALERT_WARNING then hw_led_warning true
  else hw_led_critical true.

(** *** Public API *)

Definition alert_init : AlertM unit :=
  set_current_level ALERT_INFO ;;
  set_current_code ALERT_NONE ;;
  alert_set_outputs ALERT_INFO.

Definition alert_raise (level : alert_level_t) (code : alert_code_t)
  : AlertM unit :=
  cur <- gets current_level ;;
  if level >=? cur then
    set_current_level level ;;
    set_current_code code ;;
    alert_set_outputs level ;;
    telemetry_send_alert level code
  else ret tt.

Definition alert_clear : AlertM unit :=
  set_current_level ALERT_INFO ;;
  set_current_code ALERT_NONE ;;
  alert_set_outputs ALERT_INFO.

Definition alert_get_level : AlertM alert_level_t := gets current_level.
Definition alert_get_code : AlertM alert_code_t := gets current_code.

(** *** What the platform sees *)

(** The value an indicator was last driven to; [None] while it has never
    been driven. *)
Definition last_driven (sel : alert_hook -> option bool) (log : list alert_hook)
  : option bool :=
  fold_left (fun acc e => match sel e with Some b => Some b | None => acc end)
            log None.

Definition sel_info (e : alert_hook) : option bool :=
  match e with Hw_led_info b => Some b | _ => None end.
Definition sel_warning (e : alert_hook) : option bool :=
  match e with Hw_led_warning b => Some b | _ => None end.
Definition sel_critical (e : alert_hook) : option bool :=
  match e with Hw_led_critical b => Some b | _ => None end.

(** The three indicators, in the order info, warning, critical. *)
Definition indicators (s : alert_state)
  : option bool * option bool * option bool :=
  (last_driven sel_info (alert_log s),
   last_driven sel_warning (alert_log s),
   last_driven sel_critical (alert_log s)).

Definition only_info := (Some true, Some false, Some false).
Definition only_warning := (Some false, Some true, Some false).
Definition only_critical := (Some false, Some false, Some true).

(** The indicators once [alert_set_outputs level] has run, whatever was
    driven before. *)
Definition indicators_for (level : alert_level_t)
  : option bool * option bool * option bool :=
  if level =? ALERT_INFO then only_info
  else if level =? ALERT_WARNING then only_warning
  else only_critical.

(** How many indicators are lit. *)
Definition lit (o : option bool) : nat :=
  match o with Some true => 1%nat | _ => 0%nat end.
Definition active_count (s : alert_state) : nat :=
  let '(i, w, c) := indicators s in (lit i + lit w + lit c)%nat.

(** The telemetry notifications sent so far, oldest first. *)
Fixpoint telemetry_of (log : list alert_hook)
  : list (alert_level_t * alert_code_t) :=
  match log with
  | [] => []
  | Telemetry_send_alert l c :: log' => (l, c) :: telemetry_of log'
  | _ :: log' => telemetry_of log'
  end.

Definition telemetry (s : alert_state) : list (alert_level_t * alert_code_t) :=
  telemetry_of (alert_log s).
Definition telemetry_count (s : alert_state) : nat := length (telemetry s).

(** The severity observed after each call of a sequence of raises. *)
Fixpoint levels_after (calls : list (alert_level_t * alert_code_t))
  (s : alert_state) : list alert_level_t :=
  match calls with
  | [] => []
  | (l, c) :: calls' =>
      let s' := exec (alert_raise l c) s in
      current_level s' :: levels_after calls' s'
  end.

(** *** Clients of the module *)

(** One constructor per public function, with its arguments. *)
Inductive alert_op : Type :=
| Alert_init
| Alert_raise (level : alert_level_t) (code : alert_code_t)
| Alert_clear
| Alert_get_level
| Alert_get_code.

Definition alert_step (op : alert_op) : AlertM unit :=
  match op with
  | Alert_init => alert_init
  | Alert_raise level code => alert_raise level code
  | Alert_clear => alert_clear
  | Alert_get_level => alert_get_level ;; ret tt
  | Alert_get_code => alert_get_code ;; ret tt
  end.

(** A client calling the public functions one after the other. *)
Fixpoint alert_run (ops : list alert_op) : AlertM unit :=
  match ops with
  | [] => ret tt
  | op :: ops' => alert_step op ;; alert_run ops'
  end.

(** A client that only raises. *)
Fixpoint alert_raise_all (calls : list (alert_level_t * alert_code_t))
  : AlertM unit :=
  match calls with
  | [] => ret tt
  | (l, c) :: calls' => alert_raise l c ;; alert_raise_all calls'
  end.

(** How many indicators are lit once the calls of [log] have been made. *)
Definition lit_count (log : list alert_hook) : nat :=
  (lit (last_driven sel_info log) + lit (last_driven sel_warning log)
   + lit (last_driven sel_critical log))%nat.

(** The highest of a starting level and the levels of a list of calls. *)
Definition highest (start : alert_level_t)
  (calls : list (alert_level_t * alert_code_t)) : alert_level_t :=
  fold_left Z.max (map fst calls) start.

(** The calls whose level is at least [top] and at least the level of every
    call before them. *)
Fixpoint record_highs (top : alert_level_t)
  (calls : list (alert_level_t * alert_code_t))
  : list (alert_level_t * alert_code_t) :=
  match calls with
  | [] => []
  | (l, c) :: calls' =>
      if top <=? l then (l, c) :: record_highs (Z.max top l) calls'
      else record_highs (Z.max top l) calls'
  end.

(** The stored pair is the baseline, or it is the pair of the latest
    telemetry notification. *)
Definition reported (s : alert_state) : Prop :=
  (current_level s, current_code s) = (ALERT_INFO, ALERT_NONE)
  \/ exists earlier,
       telemetry s = earlier ++ [(current_level s, current_code s)].

End ALERT.

(** ** RADIO.c *)

Module RADIO.
Local Open Scope N_scope.
Local Open Scope state_scope.

Definition RADIO_TX_BUFFER_SIZE : N := 128.
Definition RADIO_RX_BUFFER_SIZE : N := 128.

(** The platform layer.  The four hooks are only declared by the C file;
    an implementation is a type [HW] of transceiver states with one
    function per hook.  A hook sees the memory it is handed and nothing
    else of the module, whose variables are all [static]:
    - [hw_radio_send data length] is handed the contents of the buffer
      [data] points to;
    - [hw_radio_receive data max_length out] is handed the contents of the
      buffer [data] points to and the value [out] stored in [*out_length]
      on entry, and gives back its result, the contents it leaves in the
      buffer and the value it leaves in [*out_length]. *)
Class radio_hw (HW : Type) : Type := {
  hw_radio_init : HW -> bool * HW;
  hw_radio_send : list byte -> N -> HW -> bool * HW;
  hw_radio_receive : list byte -> N -> N -> HW -> (bool * list byte * N) * HW;
  hw_radio_link_status : HW -> bool * HW
}.

(** A hook invocation with its arguments. *)
Inductive radio_hook : Type :=
| Hw_radio_init
| Hw_radio_send (data : list byte) (length : N)
| Hw_radio_receive (data : list byte) (max_length : N) (out_length : N)
| Hw_radio_link_status.

(** [memset dst c n] and [memcpy dst src n] on buffer contents: the first
    [n] bytes of [dst] are replaced, the rest is kept.  The C functions are
    defined only when [dst] (and [src]) hold at least [n] bytes. *)
Definition memset (dst : list byte) (c : byte) (n : N) : list byte :=
  repeat c (N.to_nat n) ++ skipn (N.to_nat n) dst.

Definition memcpy (dst src : list byte) (n : N) : list byte :=
  firstn (N.to_nat n) src ++ skipn (N.to_nat n) dst.

(** One constructor per public function, with its arguments. *)
Inductive radio_op : Type :=
| Radio_init
| Radio_is_ready
| Radio_link_status
| Radio_send (data : list byte) (length : N)
| Radio_receive (out_length : option N)
| Radio_rx_buffer.

(** The public functions that store into each static. *)
Definition writes_initialized (op : radio_op) : bool :=
  match op with Radio_init => true | _ => false end.
Definition writes_link_ok (op : radio_op) : bool :=
  match op with Radio_init | Radio_link_status => true | _ => false end.
Definition writes_tx (op : radio_op) : bool :=
  match op with Radio_init | Radio_send _ _ => true | _ => false end.
Definition writes_rx (op : radio_op) : bool :=
  match op with Radio_init | Radio_receive _ => true | _ => false end.

(** The functions that answer with a success flag and go through the
    initialisation guard, and the read of the flag itself. *)
Definition needs_ready (op : radio_op) : bool :=
  match op with
  | Radio_is_ready | Radio_send _ _ | Radio_receive _ => true
  | _ => false
  end.

(** The caller of [radio_send] passes a buffer of at least [length]
    bytes. *)
Definition caller_ok (op : radio_op) : bool :=
  match op with
  | Radio_send data length => (N.to_nat length <=? List.length data)%nat
  | _ => true
  end.

Section Radio.
Context {HW : Type} {platform_hooks : radio_hw HW}.

(** The statics of the module, the transceiver and the hook calls made so
    far, oldest first. *)
Record radio_state : Type := {
  radio_initialized : bool;
  radio_link_ok : bool;
  tx_buffer : list byte;
  rx_buffer : list byte;
  platform : HW;
  radio_log : list radio_hook
}.

(** Both buffers have their declared size. *)
Definition buffers_sized (s : radio_state) : Prop :=
  length (tx_buffer s) = N.to_nat RADIO_TX_BUFFER_SIZE
  /\ length (rx_buffer s) = N.to_nat RADIO_RX_BUFFER_SIZE.

(** Statics without initialiser are zero; the flags start [false]. *)
Definition radio_power_on (h : HW) : radio_state :=
  {| radio_initialized := false;
     radio_link_ok := false;
     tx_buffer := repeat x00 (N.to_nat RADIO_TX_BUFFER_SIZE);
     rx_buffer := repeat x00 (N.to_nat RADIO_RX_BUFFER_SIZE);
     platform := h;
     radio_log := [] |}.

Definition RadioM : Type -> Type := State radio_state.

Definition set_radio_initialized (b : bool) : RadioM unit :=
  modify (fun s => {| radio_initialized := b;
                      radio_link_ok := radio_link_ok s;
                      tx_buffer := tx_buffer s;
                      rx_buffer := rx_buffer s;
                      platform := platform s;
                      radio_log := radio_log s |}).

Definition set_radio_link_ok (b : bool) : RadioM unit :=
  modify (fun s => {| radio_initialized := radio_initialized s;
                      radio_link_ok := b;
                      tx_buffer := tx_buffer s;
                      rx_buffer := rx_buffer s;
                      platform := platform s;
                      radio_log := radio_log s |}).

Definition set_tx_buffer (b : list byte) : RadioM unit :=
  modify (fun s => {| radio_initialized := radio_initialized s;
                      radio_link_ok := radio_link_ok s;
                      tx_buffer := b;
                      rx_buffer := rx_buffer s;
                      platform := platform s;
                      radio_log := radio_log s |}).

Definition set_rx_buffer (b : list byte) : RadioM unit :=
  modify (fun s => {| radio_initialized := radio_initialized s;
                      radio_link_ok := radio_link_ok s;
                      tx_buffer := tx_buffer s;
                      rx_buffer := b;
                      platform := platform s;
                      radio_log := radio_log s |}).

(** Running a hook: the transceiver moves on and the call is logged. *)
Definition hook {A} (e : radio_hook) (f : HW -> A * HW) : RadioM A :=
  fun s =>
    let (a, h) := f (platform s) in
    (a, {| radio_initialized := radio_initialized s;
           radio_link_ok := radio_link_ok s;
           tx_buffer := tx_buffer s;
           rx_buffer := rx_buffer s;
           platform := h;
           radio_log := radio_log s ++ [e] |}).

Definition is_null {A} (p : option A) : bool :=
  match p with None => true | Some _ => false end.

(** *** Internal helpers *)

Definition clear_buffers : RadioM unit :=
  tx <- gets tx_buffer ;;
  set_tx_buffer (memset tx x00 RADIO_TX_BUFFER_SIZE) ;;
  rx <- gets rx_buffer ;;
  set_rx_buffer (memset rx x00 RADIO_RX_BUFFER_SIZE).

(** *** Public API *)

Definition radio_init : RadioM unit :=
  clear_buffers ;;
  ok <- hook Hw_radio_init hw_radio_init ;;
  set_radio_initialized ok ;;
  set_radio_link_ok false.

Definition radio_is_ready : RadioM bool := gets radio_initialized.

Definition radio_link_status : RadioM bool :=
  up <- hook Hw_radio_link_status hw_radio_link_status ;;
  set_radio_link_ok up ;;
  gets radio_link_ok.

(** [data] is the contents of the caller's buffer, which C requires to
    hold at least [length] bytes when the copy is reached.  [length] is a
    [uint16_t]: a natural number, on which the module does no arithmetic.
    The second guard reads [length == 0 || length > RADIO_TX_BUFFER_SIZE]. *)
Definition radio_send (data : list byte) (length : N) : RadioM bool :=
  ready <- gets radio_initialized ;;
  if negb ready then ret false
  else if (length =? 0) || (RADIO_TX_BUFFER_SIZE <? length) then ret false
  else
    tx <- gets tx_buffer ;;
    set_tx_buffer (memcpy tx data length) ;;
    tx' <- gets tx_buffer ;;
    hook (Hw_radio_send tx' length) (hw_radio_send tx' length).

(** [out_length] is [None] for a null pointer and [Some v] for a pointer
    to a slot holding [v]; the slot is returned next to the result.  [slot]
    is the slot after the store [*out_length = 0]. *)
Definition radio_receive (out_length : option N) : RadioM (bool * option N) :=
  ready <- gets radio_initialized ;;
  if negb ready || is_null out_length then ret (false, out_length)
  else
    let slot := 0 in
    rx <- gets rx_buffer ;;
    r <- hook (Hw_radio_receive rx RADIO_RX_BUFFER_SIZE slot)
              (hw_radio_receive rx RADIO_RX_BUFFER_SIZE slot) ;;
    let '(ok, rx', n) := r in
    set_rx_buffer rx' ;;
    ret (ok, Some n).

Definition radio_rx_buffer : RadioM (list byte) := gets rx_buffer.

(** The calls the guard of [radio_send] turns away. *)
Definition send_rejected (s : radio_state) (len : N) : Prop :=
  radio_initialized s = false \/ len = 0 \/ RADIO_TX_BUFFER_SIZE < len.

(** The calls the guard of [radio_receive] turns away. *)
Definition receive_rejected (s : radio_state) (out_length : option N)
  : Prop :=
  radio_initialized s = false \/ out_length = None.

(** *** Clients of the module *)

(** A public call, keeping its success flag when it has one. *)
Definition radio_step (op : radio_op) : RadioM (option bool) :=
  match op with
  | Radio_init => radio_init ;; ret None
  | Radio_is_ready => b <- radio_is_ready ;; ret (Some b)
  | Radio_link_status => b <- radio_link_status ;; ret (Some b)
  | Radio_send data length => b <- radio_send data length ;; ret (Some b)
  | Radio_receive out_length =>
      r <- radio_receive out_length ;; ret (Some (fst r))
  | Radio_rx_buffer => radio_rx_buffer ;; ret None
  end.

(** A client calling the public functions one after the other. *)
Fixpoint radio_run (ops : list radio_op) : RadioM (list (option bool)) :=
  match ops with
  | [] => ret []
  | op :: ops' =>
      r <- radio_step op ;;
      rs <- radio_run ops' ;;
      ret (r :: rs)
  end.

End Radio.

Arguments radio_state HW : clear implicits.

(** A scripted transceiver: every hook answers from a fixed script, and a
    receive delivers the frame [mock_frame], cut to [max_length]. *)
Record mock : Type := {
  mock_init_ok : bool;
  mock_send_ok : bool;
  mock_receive_ok : bool;
  mock_frame : list byte;
  mock_link_up : bool
}.

#[export] Instance mock_hw : radio_hw mock := {
  hw_radio_init h := (mock_init_ok h, h);
  hw_radio_send _ _ h := (mock_send_ok h, h);
  hw_radio_receive data max_length _ h :=
    let n := N.min max_length (N.of_nat (length (mock_frame h))) in
    ((mock_receive_ok h, memcpy data (mock_frame h) n, n), h);
  hw_radio_link_status h := (mock_link_up h, h)
}.

(** A bench set-up: the transceiver initialises and has a link, refuses
    every transmission, and delivers the two-byte frame "HI". *)
Definition bench : mock :=
  {| mock_init_ok := true;
     mock_send_ok := false;
     mock_receive_ok := true;
     mock_frame := [x48; x49];
     mock_link_up := true |}.

Definition bench_ready : radio_state mock :=
  exec radio_init (radio_power_on bench).

(** The same bench with a transceiver that fails to initialise. *)
Definition bench_faulty : mock :=
  {| mock_init_ok := false;
     mock_send_ok := true;
     mock_receive_ok := true;
     mock_frame := [x48; x49];
     mock_link_up := false |}.

End RADIO.

(** ** Properties of the alert manager *)

Module AlertProps.
Import ALERT.
Local Open Scope Z_scope.
Local Open Scope state_scope.

(** Unfolds a monadic program down to the record it builds. *)
Ltac run_alert :=
  unfold alert_init, alert_clear, alert_raise, alert_set_outputs,
    alert_clear_outputs, alert_get_level, alert_get_code,
    hw_led_info, hw_led_warning, hw_led_critical, telemetry_send_alert,
    call, set_current_level, set_current_code,
    exec, eval, bind, ret, gets, modify; simpl.

Lemma enumerators_ordered : ALERT_INFO < ALERT_WARNING < ALERT_CRITICAL.
Proof. unfold ALERT_INFO, ALERT_WARNING, ALERT_CRITICAL. lia. Qed.

Lemma telemetry_of_app (l1 l2 : list alert_hook) :
  telemetry_of (l1 ++ l2) = telemetry_of l1 ++ telemetry_of l2.
Proof.
  induction l1 as [|e l1 IH]; simpl; [reflexivity|].
  destruct e; simpl; rewrite IH; reflexivity.
Qed.

Lemma last_driven_app sel (l1 l2 : list alert_hook) :
  last_driven sel (l1 ++ l2)
  = fold_left (fun acc e => match sel e with Some b => Some b | None => acc end)
              l2 (last_driven sel l1).
Proof. unfold last_driven. apply fold_left_app. Qed.

(** What [alert_set_outputs] does: four hook calls, nothing else. *)
Lemma exec_alert_set_outputs (level : alert_level_t) (s : alert_state) :
  exec (alert_set_outputs level) s
  = {| current_level := current_level s;
       current_code := current_code s;
       alert_log := alert_log s
         ++ [Hw_led_info false; Hw_led_warning false; Hw_led_critical false;
             if level =? ALERT_INFO then Hw_led_info true
             else if level =? ALERT_WARNING then Hw_led_warning true
             else Hw_led_critical true] |}.
Proof.
  run_alert. destruct (level =? ALERT_INFO); [|destruct (level =? ALERT_WARNING)];
    simpl; rewrite <- !app_assoc; reflexivity.
Qed.

Lemma exec_alert_raise_accepted level code s :
  current_level s <= level ->
  exec (alert_raise level code) s
  = {| current_level := level;
       current_code := code;
       alert_log := alert_log s
         ++ [Hw_led_info false; Hw_led_warning false; Hw_led_critical false;
             if level =? ALERT_INFO then Hw_led_info true
             else if level =? ALERT_WARNING then Hw_led_warning true
             else Hw_led_critical true;
             Telemetry_send_alert level code] |}.
Proof.
  intros Hle. run_alert.
  replace (level >=? current_level s) with true
    by (symmetry; apply Z.geb_le; lia).
  destruct (level =? ALERT_INFO); [|destruct (level =? ALERT_WARNING)];
    simpl; rewrite <- !app_assoc; reflexivity.
Qed.

Lemma exec_alert_raise_rejected level code s :
  level < current_level s -> exec (alert_raise level code) s = s.
Proof.
  intros Hlt. run_alert.
  replace (level >=? current_level s) with false; [reflexivity|].
  symmetry. rewrite Z.geb_leb. apply Z.leb_gt. exact Hlt.
Qed.

(** A raise never lowers the severity. *)
Lemma alert_raise_level_le level code s :
  current_level s <= current_level (exec (alert_raise level code) s).
Proof.
  destruct (Z_le_gt_dec (current_level s) level) as [Hle|Hgt].
  - rewrite exec_alert_raise_accepted by exact Hle. simpl. exact Hle.
  - rewrite exec_alert_raise_rejected by lia. lia.
Qed.

Lemma levels_after_sorted calls : forall s,
  Sorted Z.le (current_level s :: levels_after calls s).
Proof.
  induction calls as [|[l c] calls IH]; intros s; simpl.
  - repeat constructor.
  - constructor; [apply IH|]. constructor. apply alert_raise_level_le.
Qed.

Lemma indicators_set_outputs level s :
  indicators (exec (alert_set_outputs level) s) = indicators_for level.
Proof.
  rewrite exec_alert_set_outputs. unfold indicators, indicators_for. simpl.
  rewrite !last_driven_app.
  destruct (level =? ALERT_INFO); [|destruct (level =? ALERT_WARNING)];
    reflexivity.
Qed.

Lemma indicators_raise_accepted level code s :
  current_level s <= level ->
  indicators (exec (alert_raise level code) s) = indicators_for level.
Proof.
  intros Hle. rewrite exec_alert_raise_accepted by exact Hle.
  unfold indicators, indicators_for. simpl. rewrite !last_driven_app.
  destruct (level =? ALERT_INFO); [|destruct (level =? ALERT_WARNING)];
    reflexivity.
Qed.

Lemma active_count_for level s :
  indicators s = indicators_for level -> active_count s = 1%nat.
Proof.
  unfold active_count, indicators_for. intros ->.
  destruct (level =? ALERT_INFO); [|destruct (level =? ALERT_WARNING)];
    reflexivity.
Qed.

Lemma telemetry_raise_accepted level code s :
  current_level s <= level ->
  telemetry (exec (alert_raise level code) s) = telemetry s ++ [(level, code)].
Proof.
  intros Hle. rewrite exec_alert_raise_accepted by exact Hle.
  unfold telemetry. simpl. rewrite telemetry_of_app.
  destruct (level =? ALERT_INFO); [|destruct (level =? ALERT_WARNING)];
    reflexivity.
Qed.

(** C1: along any sequence of [alert_raise] calls, from any state, the
    severities observed after each call never decrease (each is at least
    every earlier one, the starting severity included); and [alert_clear]
    leaves the pair (info, none) whatever the state was. *)
Theorem alert_level_monotone_until_clear :
  (forall calls s,
      StronglySorted Z.le (current_level s :: levels_after calls s))
  /\ (forall s,
         current_level (exec alert_clear s) = ALERT_INFO
         /\ current_code (exec alert_clear s) = ALERT_NONE).
Proof.
  split.
  - intros calls s. apply Sorted_StronglySorted.
    + intros x y z. apply Z.le_trans.
    + apply levels_after_sorted.
  - intros s. split; reflexivity.
Qed.

(** C2: a raise is accepted (it sends a telemetry notification) exactly
    when its level is at least the current one, so also at equal severity;
    an accepted raise stores exactly (level, code), drives the three
    indicators off and then the one of its level on, so that this one alone
    is lit, and sends the single notification (level, code) last. *)
Theorem alert_raise_accepted_iff_ge :
  forall level code s,
    let s' := exec (alert_raise level code) s in
    (telemetry_count s' = S (telemetry_count s) <-> current_level s <= level)
    /\ (alert_log s' <> alert_log s <-> current_level s <= level)
    /\ (current_level s <= level ->
        current_level s' = level
        /\ current_code s' = code
        /\ (exists on_call,
               alert_log s'
               = alert_log s
                 ++ [Hw_led_info false; Hw_led_warning false;
                     Hw_led_critical false; on_call;
                     Telemetry_send_alert level code]
               /\ (level = ALERT_INFO -> on_call = Hw_led_info true)
               /\ (level = ALERT_WARNING -> on_call = Hw_led_warning true)
               /\ (level = ALERT_CRITICAL -> on_call = Hw_led_critical true))
        /\ active_count s' = 1%nat
        /\ (level = ALERT_INFO -> indicators s' = only_info)
        /\ (level = ALERT_WARNING -> indicators s' = only_warning)
        /\ (level = ALERT_CRITICAL -> indicators s' = only_critical)
        /\ telemetry s' = telemetry s ++ [(level, code)]).
Proof.
  intros level code s s'. subst s'.
  destruct (Z_le_gt_dec (current_level s) level) as [Hle|Hgt].
  - pose proof (telemetry_raise_accepted level code s Hle) as Htel.
    pose proof (indicators_raise_accepted level code s Hle) as Hind.
    split; [|split].
    + split; [intros _; exact Hle|intros _].
      unfold telemetry_count. rewrite Htel, length_app. simpl. lia.
    + split; [intros _; exact Hle|intros _ Heq].
      apply (f_equal (@length _)) in Heq.
      rewrite exec_alert_raise_accepted in Heq by exact Hle.
      simpl in Heq. rewrite length_app in Heq. simpl in Heq. lia.
    + intros _. rewrite exec_alert_raise_accepted by exact Hle. simpl.
      rewrite exec_alert_raise_accepted in Hind, Htel by exact Hle.
      repeat split.
      * eexists. split; [reflexivity|].
        repeat split; intros ->; reflexivity.
      * apply (active_count_for level). exact Hind.
      * intros ->. exact Hind.
      * intros ->. exact Hind.
      * intros ->. exact Hind.
      * exact Htel.
  - rewrite exec_alert_raise_rejected by lia.
    split; [|split]; [split; lia|split; [congruence|lia]|lia].
Qed.

Lemma alert_raise_accepted_iff_ge_witness :
  let s := exec alert_init alert_power_on in
  let s' := exec (alert_raise ALERT_WARNING ALERT_SENSOR_FAIL) s in
  current_level s <= ALERT_WARNING
  /\ (current_level s', current_code s') = (ALERT_WARNING, ALERT_SENSOR_FAIL)
  /\ indicators s' = only_warning
  /\ telemetry s' = [(ALERT_WARNING, ALERT_SENSOR_FAIL)].
Proof.
  intros s s'.
  assert (Hle : current_level s <= ALERT_WARNING) by (vm_compute; discriminate).
  destruct (alert_raise_accepted_iff_ge ALERT_WARNING ALERT_SENSOR_FAIL s)
    as (_ & _ & Hacc).
  destruct (Hacc Hle) as (Hl & Hc & _ & _ & _ & Hw & _ & Ht).
  split; [exact Hle|]. split; [|split].
  - fold s' in Hl, Hc. rewrite Hl, Hc. reflexivity.
  - exact (Hw eq_refl).
  - exact Ht.
Defined.

(** C5: a raise strictly below the current severity changes nothing: the
    stored pair, the hook log and with it the indicators, and the telemetry
    sent so far are as before the call. *)
Theorem alert_raise_below_is_noop :
  forall level code s,
    level < current_level s ->
    let s' := exec (alert_raise level code) s in
    s' = s
    /\ (current_level s', current_code s') = (current_level s, current_code s)
    /\ indicators s' = indicators s
    /\ telemetry_count s' = telemetry_count s.
Proof.
  intros level code s Hlt s'. subst s'.
  rewrite exec_alert_raise_rejected by exact Hlt. repeat split.
Qed.

Lemma alert_raise_below_is_noop_witness :
  let s := exec (alert_init ;; alert_raise ALERT_WARNING ALERT_SENSOR_FAIL)
                alert_power_on in
  let s' := exec (alert_raise ALERT_INFO ALERT_NONE) s in
  ALERT_INFO < current_level s
  /\ s' = s
  /\ (current_level s', current_code s') = (current_level s, current_code s)
  /\ indicators s' = indicators s
  /\ telemetry_count s' = telemetry_count s.
Proof.
  intros s s'.
  assert (Hlt : ALERT_INFO < current_level s) by (vm_compute; reflexivity).
  split; [exact Hlt|].
  exact (alert_raise_below_is_noop ALERT_INFO ALERT_NONE s Hlt).
Defined.

(** C8: after [alert_init] and after [alert_clear], from any state,
    [alert_get_level] returns info and [alert_get_code] returns none, the
    info indicator is lit and the other two are dark, and no telemetry
    notification was sent by the operation. *)
Theorem alert_init_clear_baseline :
  forall s,
    (let s' := exec alert_init s in
     eval alert_get_level s' = ALERT_INFO
     /\ eval alert_get_code s' = ALERT_NONE
     /\ indicators s' = only_info
     /\ telemetry s' = telemetry s)
    /\ (let s' := exec alert_clear s in
        eval alert_get_level s' = ALERT_INFO
        /\ eval alert_get_code s' = ALERT_NONE
        /\ indicators s' = only_info
        /\ telemetry s' = telemetry s).
Proof.
  intros s.
  assert (H : forall s0,
             alert_log s0
             = alert_log s ++ [Hw_led_info false; Hw_led_warning false;
                              Hw_led_critical false; Hw_led_info true] ->
             indicators s0 = only_info /\ telemetry s0 = telemetry s).
  { intros s0 Hlog. unfold indicators, telemetry. rewrite Hlog.
    rewrite !last_driven_app, telemetry_of_app. simpl.
    rewrite app_nil_r. split; reflexivity. }
  split; cbv zeta.
  - split; [reflexivity|]. split; [reflexivity|].
    apply H. run_alert. rewrite <- !app_assoc. reflexivity.
  - split; [reflexivity|]. split; [reflexivity|].
    apply H. run_alert. rewrite <- !app_assoc. reflexivity.
Qed.

(** C9: for a level that is neither info nor warning, whatever its numeric
    value, [alert_set_outputs] lights the critical indicator alone, and so
    does every accepted [alert_raise] at that level. *)
Theorem alert_other_levels_are_critical :
  forall level code s,
    level <> ALERT_INFO ->
    level <> ALERT_WARNING ->
    indicators (exec (alert_set_outputs level) s) = only_critical
    /\ (current_level s <= level ->
        indicators (exec (alert_raise level code) s) = only_critical
        /\ current_level (exec (alert_raise level code) s) = level).
Proof.
  intros level code s Hi Hw.
  assert (Hfor : indicators_for level = only_critical).
  { unfold indicators_for.
    destruct (Z.eqb_spec level ALERT_INFO); [contradiction|].
    destruct (Z.eqb_spec level ALERT_WARNING); [contradiction|reflexivity]. }
  split.
  - rewrite indicators_set_outputs. exact Hfor.
  - intros Hle. split.
    + rewrite indicators_raise_accepted by exact Hle. exact Hfor.
    + rewrite exec_alert_raise_accepted by exact Hle. reflexivity.
Qed.

Lemma alert_other_levels_are_critical_witness :
  let s := exec (alert_init ;; alert_raise ALERT_CRITICAL ALERT_ENGINE_FAULT)
                alert_power_on in
  7 <> ALERT_INFO /\ 7 <> ALERT_WARNING /\ current_level s <= 7
  /\ indicators (exec (alert_raise 7 ALERT_OVER_PRESSURE) s) = only_critical
  /\ current_level (exec (alert_raise 7 ALERT_OVER_PRESSURE) s) = 7.
Proof.
  intros s.
  assert (Hi : 7 <> ALERT_INFO) by (vm_compute; discriminate).
  assert (Hw : 7 <> ALERT_WARNING) by (vm_compute; discriminate).
  assert (Hle : current_level s <= 7) by (vm_compute; discriminate).
  split; [exact Hi|]. split; [exact Hw|]. split; [exact Hle|].
  exact (proj2 (alert_other_levels_are_critical 7 ALERT_OVER_PRESSURE s Hi Hw)
               Hle).
Defined.

(** The scenario of the specification, run on the embedding. *)
Example scenario :
  let s1 := exec (alert_init ;;
                  alert_raise ALERT_WARNING ALERT_SENSOR_FAIL ;;
                  alert_raise ALERT_INFO ALERT_NONE) alert_power_on in
  let s2 := exec (alert_raise ALERT_CRITICAL ALERT_ENGINE_FAULT) s1 in
  let s3 := exec alert_clear s2 in
  (current_level s1, current_code s1, telemetry_count s1)
  = (ALERT_WARNING, ALERT_SENSOR_FAIL, 1%nat)
  /\ (current_level s2, current_code s2, telemetry_count s2, indicators s2)
     = (ALERT_CRITICAL, ALERT_ENGINE_FAULT, 2%nat, only_critical)
  /\ (current_level s3, current_code s3, telemetry_count s3, indicators s3)
     = (ALERT_INFO, ALERT_NONE, 2%nat, only_info).
Proof. repeat split. Qed.

(** *** Clients: sequences of calls *)

Lemma exec_alert_run_cons op ops s :
  exec (alert_run (op :: ops)) s = exec (alert_run ops) (exec (alert_step op) s).
Proof.
  unfold exec. simpl. unfold bind. destruct (alert_step op s). reflexivity.
Qed.

Lemma exec_alert_raise_all_cons l c calls s :
  exec (alert_raise_all ((l, c) :: calls)) s
  = exec (alert_raise_all calls) (exec (alert_raise l c) s).
Proof.
  unfold exec. simpl. unfold bind at 1. destruct (alert_raise l c s).
  reflexivity.
Qed.

(** Establish, preserve, use: a property kept by every public function
    holds after any sequence of calls. *)
Lemma alert_run_invariant (P : alert_state -> Prop) :
  (forall op s, P s -> P (exec (alert_step op) s)) ->
  forall ops s, P s -> P (exec (alert_run ops) s).
Proof.
  intros Hstep ops. induction ops as [|op ops IH]; intros s Hs.
  - exact Hs.
  - rewrite exec_alert_run_cons. apply IH, Hstep, Hs.
Qed.

Lemma exec_alert_baseline s :
  exec alert_init s = exec alert_clear s
  /\ exec alert_clear s
     = {| current_level := ALERT_INFO;
          current_code := ALERT_NONE;
          alert_log := alert_log s
            ++ [Hw_led_info false; Hw_led_warning false;
                Hw_led_critical false; Hw_led_info true] |}.
Proof. split; [reflexivity|]. run_alert. rewrite <- !app_assoc. reflexivity. Qed.

Lemma indicators_baseline s :
  indicators (exec alert_clear s) = indicators_for ALERT_INFO.
Proof.
  destruct (exec_alert_baseline s) as [_ ->].
  unfold indicators. simpl. rewrite !last_driven_app. reflexivity.
Qed.

(** Every public function either leaves the state alone or leaves the
    indicators showing the stored level. *)
Lemma alert_step_noop_or_sync op s :
  exec (alert_step op) s = s
  \/ indicators (exec (alert_step op) s)
     = indicators_for (current_level (exec (alert_step op) s)).
Proof.
  destruct op as [|l c| | |]; simpl alert_step.
  - right. destruct (exec_alert_baseline s) as [-> _].
    apply indicators_baseline.
  - destruct (Z_le_gt_dec (current_level s) l) as [Hle|Hgt].
    + right. rewrite indicators_raise_accepted by exact Hle.
      rewrite exec_alert_raise_accepted by exact Hle. reflexivity.
    + left. apply exec_alert_raise_rejected. lia.
  - right. apply indicators_baseline.
  - left. reflexivity.
  - left. reflexivity.
Qed.

(** X1: once [alert_init] has run, after any further sequence of public
    calls the indicators show the stored level and exactly one is lit; from
    power-on, the same holds as soon as any hook has been called. *)
Theorem alert_indicators_track_level :
  (forall ops s0,
      let s := exec (alert_run ops) (exec alert_init s0) in
      indicators s = indicators_for (current_level s)
      /\ active_count s = 1%nat)
  /\ (forall ops,
         let s := exec (alert_run ops) alert_power_on in
         alert_log s = []
         \/ (indicators s = indicators_for (current_level s)
             /\ active_count s = 1%nat)).
Proof.
  split.
  - intros ops s0 s. subst s.
    assert (Hsync : indicators (exec (alert_run ops) (exec alert_init s0))
                    = indicators_for
                        (current_level
                           (exec (alert_run ops) (exec alert_init s0)))).
    { apply (alert_run_invariant
               (fun s => indicators s = indicators_for (current_level s))).
      - intros op s Hs.
        destruct (alert_step_noop_or_sync op s) as [-> | H]; assumption.
      - destruct (exec_alert_baseline s0) as [-> _].
        apply indicators_baseline. }
    split; [exact Hsync|]. eapply active_count_for. exact Hsync.
  - intros ops s. subst s.
    assert (Hinv : alert_log (exec (alert_run ops) alert_power_on) = []
                   \/ indicators (exec (alert_run ops) alert_power_on)
                      = indicators_for
                          (current_level
                             (exec (alert_run ops) alert_power_on))).
    { apply (alert_run_invariant
               (fun s => alert_log s = []
                         \/ indicators s = indicators_for (current_level s))).
      - intros op s Hs.
        destruct (alert_step_noop_or_sync op s) as [-> | H];
          [exact Hs|right; exact H].
      - left. reflexivity. }
    destruct Hinv as [Hnil|Hsync]; [left; exact Hnil|right].
    split; [exact Hsync|]. eapply active_count_for. exact Hsync.
Qed.

Lemma alert_step_reported op s :
  ALERT_INFO <= current_level s /\ reported s ->
  ALERT_INFO <= current_level (exec (alert_step op) s)
  /\ reported (exec (alert_step op) s).
Proof.
  intros [Hlow Hrep].
  assert (Hbase : ALERT_INFO <= current_level (exec alert_clear s)
                  /\ reported (exec alert_clear s)).
  { split; [apply Z.le_refl|left; reflexivity]. }
  destruct op as [|l c| | |]; simpl alert_step.
  - destruct (exec_alert_baseline s) as [-> _]. exact Hbase.
  - destruct (Z_le_gt_dec (current_level s) l) as [Hle|Hgt].
    + pose proof (telemetry_raise_accepted l c s Hle) as Htel.
      rewrite exec_alert_raise_accepted in * by exact Hle.
      split; [simpl; lia|]. right. exists (telemetry s). exact Htel.
    + rewrite exec_alert_raise_rejected by lia. split; assumption.
  - exact Hbase.
  - split; assumption.
  - split; assumption.
Qed.

(** X2: in every state a client can reach from power-on, the severity is
    at least info, and the stored pair is either the baseline (info, none)
    or the pair of the latest telemetry notification. *)
Theorem alert_state_is_reported :
  forall ops,
    let s := exec (alert_run ops) alert_power_on in
    ALERT_INFO <= current_level s /\ reported s.
Proof.
  intros ops s. subst s.
  apply (alert_run_invariant
           (fun s => ALERT_INFO <= current_level s /\ reported s)).
  - apply alert_step_reported.
  - split; [apply Z.le_refl|left; reflexivity].
Qed.

(** X3: a sequence of raises all strictly below the current severity
    leaves the state as it was: nothing stored, no indicator driven, no
    telemetry sent. *)
Theorem alert_lower_raises_are_masked :
  forall calls s,
    Forall (fun lc => fst lc < current_level s) calls ->
    exec (alert_raise_all calls) s = s.
Proof.
  intros calls s Hall. induction Hall as [|[l c] calls Hlt _ IH].
  - reflexivity.
  - rewrite exec_alert_raise_all_cons.
    rewrite exec_alert_raise_rejected by exact Hlt. exact IH.
Qed.

Lemma alert_lower_raises_are_masked_witness :
  let s := exec (alert_init ;; alert_raise ALERT_CRITICAL ALERT_ENGINE_FAULT)
                alert_power_on in
  let calls := [(ALERT_WARNING, ALERT_SENSOR_FAIL); (ALERT_INFO, ALERT_NONE);
                (ALERT_WARNING, ALERT_OVER_PRESSURE)] in
  Forall (fun lc => fst lc < current_level s) calls
  /\ exec (alert_raise_all calls) s = s.
Proof.
  intros s calls.
  assert (Hall : Forall (fun lc => fst lc < current_level s) calls)
    by (repeat constructor).
  split; [exact Hall|].
  exact (alert_lower_raises_are_masked calls s Hall).
Defined.

Lemma current_level_raise l c s :
  current_level (exec (alert_raise l c) s) = Z.max (current_level s) l.
Proof.
  destruct (Z_le_gt_dec (current_level s) l) as [Hle|Hgt].
  - rewrite exec_alert_raise_accepted by exact Hle. simpl. lia.
  - rewrite exec_alert_raise_rejected by lia. lia.
Qed.

(** X4: after any sequence of raises the stored severity is the highest
    of the starting severity and the levels raised. *)
Theorem alert_level_is_highest_raised :
  forall calls s,
    current_level (exec (alert_raise_all calls) s)
    = highest (current_level s) calls.
Proof.
  intros calls. induction calls as [|[l c] calls IH]; intros s.
  - reflexivity.
  - rewrite exec_alert_raise_all_cons, IH, current_level_raise. reflexivity.
Qed.

Lemma last_cons_default {A} (a d : A) (l : list A) :
  last (a :: l) d = last l a.
Proof.
  revert a d. induction l as [|b l IH]; intros a d; [reflexivity|].
  change (last (a :: b :: l) d) with (last (b :: l) d).
  rewrite (IH b d), (IH b a). reflexivity.
Qed.

(** X5: the telemetry sent during a sequence of raises is exactly, in
    order, the calls whose level is at least the starting severity and at
    least every level raised before them; the code stored at the end is the
    code of the last of these calls, or the starting code if there is
    none. *)
Theorem alert_telemetry_is_record_highs :
  forall calls s,
    let s' := exec (alert_raise_all calls) s in
    telemetry s' = telemetry s ++ record_highs (current_level s) calls
    /\ current_code s'
       = last (map snd (record_highs (current_level s) calls))
              (current_code s).
Proof.
  intros calls. induction calls as [|[l c] calls IH]; intros s; cbv zeta.
  - simpl. rewrite app_nil_r. split; reflexivity.
  - rewrite exec_alert_raise_all_cons.
    destruct (IH (exec (alert_raise l c) s)) as [Htel Hcode].
    rewrite Htel, Hcode, current_level_raise. simpl record_highs.
    destruct (Z.leb_spec (current_level s) l) as [Hle|Hgt].
    + rewrite (telemetry_raise_accepted l c s Hle), <- app_assoc.
      split; [reflexivity|].
      rewrite exec_alert_raise_accepted by exact Hle.
      simpl map. rewrite last_cons_default. reflexivity.
    + rewrite exec_alert_raise_rejected by exact Hgt.
      split; reflexivity.
Qed.

(** X6: a raise at a level above critical that is accepted lights the
    critical indicator and stores its level, after which a raise at critical
    is turned away whatever its code: the state stays as the first raise
    left it. *)
Theorem alert_above_critical_locks_out_critical :
  forall l c c' s,
    ALERT_CRITICAL < l ->
    current_level s <= l ->
    let s1 := exec (alert_raise l c) s in
    current_level s1 = l
    /\ indicators s1 = only_critical
    /\ exec (alert_raise ALERT_CRITICAL c') s1 = s1.
Proof.
  intros l c c' s Hgt Hle s1. subst s1.
  assert (Hlvl : current_level (exec (alert_raise l c) s) = l)
    by (rewrite current_level_raise; lia).
  split; [exact Hlvl|]. split.
  - rewrite indicators_raise_accepted by exact Hle.
    unfold indicators_for, ALERT_INFO, ALERT_WARNING, ALERT_CRITICAL in *.
    destruct (Z.eqb_spec l 0); [lia|].
    destruct (Z.eqb_spec l 1); [lia|reflexivity].
  - apply exec_alert_raise_rejected. rewrite Hlvl. exact Hgt.
Qed.

Lemma alert_above_critical_locks_out_critical_witness :
  let s := exec alert_init alert_power_on in
  let s1 := exec (alert_raise 3 ALERT_OVER_PRESSURE) s in
  ALERT_CRITICAL < 3 /\ current_level s <= 3
  /\ current_level s1 = 3
  /\ indicators s1 = only_critical
  /\ exec (alert_raise ALERT_CRITICAL ALERT_ENGINE_FAULT) s1 = s1.
Proof.
  intros s s1.
  assert (Hgt : ALERT_CRITICAL < 3) by reflexivity.
  assert (Hle : current_level s <= 3) by (vm_compute; discriminate).
  split; [exact Hgt|]. split; [exact Hle|].
  exact (alert_above_critical_locks_out_critical
           3 ALERT_OVER_PRESSURE ALERT_ENGINE_FAULT s Hgt Hle).
Defined.

(** X7: after [alert_clear], from any state, a raise at info or above is
    accepted: its pair is stored, it is the one notification sent, and the
    indicators show its level. *)
Theorem alert_clear_rearms :
  forall l c s,
    ALERT_INFO <= l ->
    let s' := exec (alert_raise l c) (exec alert_clear s) in
    (current_level s', current_code s') = (l, c)
    /\ telemetry s' = telemetry s ++ [(l, c)]
    /\ indicators s' = indicators_for l.
Proof.
  intros l c s Hl s'. subst s'.
  assert (Hle : current_level (exec alert_clear s) <= l) by exact Hl.
  split; [|split].
  - rewrite exec_alert_raise_accepted by exact Hle. reflexivity.
  - rewrite telemetry_raise_accepted by exact Hle. f_equal.
    destruct (exec_alert_baseline s) as [_ ->]. unfold telemetry. simpl.
    rewrite telemetry_of_app. simpl. apply app_nil_r.
  - apply indicators_raise_accepted. exact Hle.
Qed.

Lemma alert_clear_rearms_witness :
  let s := exec (alert_init ;; alert_raise ALERT_CRITICAL ALERT_ENGINE_FAULT)
                alert_power_on in
  let s' := exec (alert_raise ALERT_WARNING ALERT_SENSOR_FAIL)
                 (exec alert_clear s) in
  ALERT_INFO <= ALERT_WARNING
  /\ (current_level s', current_code s') = (ALERT_WARNING, ALERT_SENSOR_FAIL)
  /\ telemetry s' = telemetry s ++ [(ALERT_WARNING, ALERT_SENSOR_FAIL)]
  /\ indicators s' = indicators_for ALERT_WARNING.
Proof.
  intros s s'.
  assert (Hl : ALERT_INFO <= ALERT_WARNING) by (vm_compute; discriminate).
  split; [exact Hl|].
  exact (alert_clear_rearms ALERT_WARNING ALERT_SENSOR_FAIL s Hl).
Defined.

(** *** Mutual exclusion of the indicators, call by call *)

Ltac count_leds :=
  unfold lit_count; rewrite ?last_driven_app; simpl;
  repeat match goal with
         | |- context [last_driven ?sel ?log] =>
             destruct (last_driven sel log) as [[|]|]
         end;
  simpl; lia.

Lemma lit_count_prefixes_app (log suffix : list alert_hook) :
  (forall n, (lit_count (firstn n log) <= 1)%nat) ->
  (forall k, (lit_count (log ++ firstn k suffix) <= 1)%nat) ->
  forall n, (lit_count (firstn n (log ++ suffix)) <= 1)%nat.
Proof.
  intros Hlog Hsuf n. rewrite firstn_app.
  destruct (Nat.le_gt_cases n (length log)) as [Hle|Hgt].
  - replace (n - length log)%nat with 0%nat by lia.
    simpl. rewrite app_nil_r. apply Hlog.
  - rewrite firstn_all2 by lia. apply Hsuf.
Qed.

(** Driving the three indicators off and then one on, with or without a
    telemetry call after, never shows two lit indicators on the way. *)
Lemma lit_count_set_outputs log on_call tail :
  (lit_count log <= 1)%nat ->
  on_call = Hw_led_info true \/ on_call = Hw_led_warning true
  \/ on_call = Hw_led_critical true ->
  tail = [] \/ (exists l c, tail = [Telemetry_send_alert l c]) ->
  forall k,
    (lit_count
       (log ++ firstn k ([Hw_led_info false; Hw_led_warning false;
                          Hw_led_critical false; on_call] ++ tail)) <= 1)%nat.
Proof.
  intros Hlog Hon Htail k. revert Hlog.
  destruct Htail as [-> | (l & c & ->)];
    destruct Hon as [-> | [-> | ->]];
    destruct k as [|[|[|[|[|k]]]]]; simpl firstn; rewrite ?firstn_nil;
    rewrite ?app_nil_r; count_leds.
Qed.

Lemma alert_step_lit_count op s :
  (forall n, (lit_count (firstn n (alert_log s)) <= 1)%nat) ->
  forall n,
    (lit_count (firstn n (alert_log (exec (alert_step op) s))) <= 1)%nat.
Proof.
  intros Hsafe.
  assert (Hlog : (lit_count (alert_log s) <= 1)%nat).
  { rewrite <- (firstn_all (alert_log s)). apply Hsafe. }
  assert (Hbase : forall n,
             (lit_count (firstn n (alert_log (exec alert_clear s))) <= 1)%nat).
  { destruct (exec_alert_baseline s) as [_ ->]. simpl alert_log.
    apply lit_count_prefixes_app; [exact Hsafe|]. intros k.
    apply (lit_count_set_outputs (alert_log s) (Hw_led_info true) []);
      [exact Hlog|left; reflexivity|left; reflexivity]. }
  destruct op as [|l c| | |]; simpl alert_step.
  - destruct (exec_alert_baseline s) as [-> _]. exact Hbase.
  - destruct (Z_le_gt_dec (current_level s) l) as [Hle|Hgt].
    + rewrite exec_alert_raise_accepted by exact Hle. simpl alert_log.
      apply lit_count_prefixes_app; [exact Hsafe|]. intros k.
      apply (lit_count_set_outputs (alert_log s) _
               [Telemetry_send_alert l c]); [exact Hlog| |].
      * destruct (l =? ALERT_INFO); [left; reflexivity|].
        destruct (l =? ALERT_WARNING); right; [left|right]; reflexivity.
      * right. exists l, c. reflexivity.
    + rewrite exec_alert_raise_rejected by lia. exact Hsafe.
  - exact Hbase.
  - exact Hsafe.
  - exact Hsafe.
Qed.

(** X8: from power-on, through any sequence of public calls, at most one
    indicator is lit after each single hook call, so also in the middle of
    a public call. *)
Theorem alert_never_two_indicators :
  forall ops n,
    (lit_count (firstn n (alert_log (exec (alert_run ops) alert_power_on)))
     <= 1)%nat.
Proof.
  intros ops.
  apply (alert_run_invariant
           (fun s => forall n, (lit_count (firstn n (alert_log s)) <= 1)%nat)).
  - intros op s. apply alert_step_lit_count.
  - intros n. simpl. rewrite firstn_nil. unfold lit_count. simpl. lia.
Qed.

End AlertProps.

(** ** Properties of the radio link guard *)

Module RadioProps.
Import RADIO.
Local Open Scope N_scope.
Local Open Scope state_scope.

Ltac run_radio :=
  unfold radio_init, radio_is_ready, radio_link_status, radio_send,
    radio_receive, radio_rx_buffer, clear_buffers, hook,
    set_radio_initialized, set_radio_link_ok, set_tx_buffer, set_rx_buffer,
    exec, eval, bind, ret, gets, modify; simpl.

Lemma firstn_memset dst c n :
  firstn (N.to_nat n) (memset dst c n) = repeat c (N.to_nat n).
Proof.
  unfold memset. rewrite firstn_app, repeat_length, Nat.sub_diag. simpl.
  rewrite app_nil_r. apply firstn_all2. rewrite repeat_length. lia.
Qed.

Lemma skipn_memset dst c n :
  skipn (N.to_nat n) (memset dst c n) = skipn (N.to_nat n) dst.
Proof.
  unfold memset. rewrite skipn_app, repeat_length, Nat.sub_diag. simpl.
  rewrite skipn_all2 by (rewrite repeat_length; lia). reflexivity.
Qed.

Lemma memset_whole dst c n :
  length dst = N.to_nat n -> memset dst c n = repeat c (N.to_nat n).
Proof.
  intros Hlen. unfold memset. rewrite skipn_all2 by lia. apply app_nil_r.
Qed.

Lemma firstn_memcpy dst src n :
  (N.to_nat n <= length src)%nat ->
  firstn (N.to_nat n) (memcpy dst src n) = firstn (N.to_nat n) src.
Proof.
  intros Hlen. unfold memcpy.
  rewrite firstn_app, length_firstn, Nat.min_l, Nat.sub_diag by exact Hlen.
  simpl. rewrite app_nil_r. apply firstn_all2. rewrite length_firstn. lia.
Qed.

Lemma skipn_memcpy dst src n :
  (N.to_nat n <= length src)%nat ->
  skipn (N.to_nat n) (memcpy dst src n) = skipn (N.to_nat n) dst.
Proof.
  intros Hlen. unfold memcpy.
  rewrite skipn_app, length_firstn, Nat.min_l, Nat.sub_diag by exact Hlen.
  simpl. rewrite skipn_all2 by (rewrite length_firstn; lia). reflexivity.
Qed.

Lemma length_memcpy dst src n :
  (N.to_nat n <= length src)%nat ->
  (N.to_nat n <= length dst)%nat ->
  length (memcpy dst src n) = length dst.
Proof.
  intros Hs Hd. unfold memcpy.
  rewrite length_app, length_firstn, length_skipn. lia.
Qed.

Section Facts.
Context {HW : Type} {platform_hooks : radio_hw HW}.
Implicit Types (s : radio_state HW) (data : list byte) (len : N).

Lemma send_rejected_dec s len :
  {send_rejected s len}
  + {radio_initialized s = true /\ 0 < len <= RADIO_TX_BUFFER_SIZE}.
Proof.
  unfold send_rejected.
  destruct (radio_initialized s); [|left; left; reflexivity].
  destruct (N.eq_dec len 0) as [->|Hz]; [left; right; left; reflexivity|].
  destruct (RADIO_TX_BUFFER_SIZE <? len) eqn:Hcmp.
  - left. right. right. apply N.ltb_lt. exact Hcmp.
  - right. apply N.ltb_ge in Hcmp. split; [reflexivity|lia].
Qed.

Lemma radio_send_rejected data len s :
  send_rejected s len -> radio_send data len s = (false, s).
Proof.
  intros [Hinit|[->|Hgt]]; unfold radio_send, bind, gets, ret.
  - rewrite Hinit. reflexivity.
  - destruct (radio_initialized s); reflexivity.
  - apply N.ltb_lt in Hgt. rewrite Hgt, orb_true_r.
    destruct (radio_initialized s); reflexivity.
Qed.

Lemma radio_send_forwarded data len s :
  radio_initialized s = true ->
  0 < len <= RADIO_TX_BUFFER_SIZE ->
  let tx' := memcpy (tx_buffer s) data len in
  radio_send data len s
  = (fst (hw_radio_send tx' len (platform s)),
     {| radio_initialized := radio_initialized s;
        radio_link_ok := radio_link_ok s;
        tx_buffer := tx';
        rx_buffer := rx_buffer s;
        platform := snd (hw_radio_send tx' len (platform s));
        radio_log := radio_log s ++ [Hw_radio_send tx' len] |}).
Proof.
  intros Hinit [Hpos Hle] tx'. subst tx'. run_radio. rewrite Hinit. simpl.
  replace (len =? 0) with false by (symmetry; apply N.eqb_neq; lia).
  replace (RADIO_TX_BUFFER_SIZE <? len) with false
    by (symmetry; apply N.ltb_ge; exact Hle).
  simpl. destruct (hw_radio_send _ len (platform s)). simpl.
  rewrite Hinit. reflexivity.
Qed.

Lemma receive_rejected_dec s out_length :
  {receive_rejected s out_length}
  + {radio_initialized s = true /\ exists v, out_length = Some v}.
Proof.
  unfold receive_rejected.
  destruct (radio_initialized s); [|left; left; reflexivity].
  destruct out_length as [v|]; [|left; right; reflexivity].
  right. split; [reflexivity|exists v; reflexivity].
Qed.

Lemma radio_receive_rejected out_length s :
  receive_rejected s out_length ->
  radio_receive out_length s = ((false, out_length), s).
Proof.
  intros [Hinit| ->]; unfold radio_receive, bind, gets, ret.
  - rewrite Hinit. reflexivity.
  - destruct (radio_initialized s); reflexivity.
Qed.

Lemma radio_receive_delegated v s :
  radio_initialized s = true ->
  let r := hw_radio_receive (rx_buffer s) RADIO_RX_BUFFER_SIZE 0
                            (platform s) in
  radio_receive (Some v) s
  = ((fst (fst (fst r)), Some (snd (fst r))),
     {| radio_initialized := radio_initialized s;
        radio_link_ok := radio_link_ok s;
        tx_buffer := tx_buffer s;
        rx_buffer := snd (fst (fst r));
        platform := snd r;
        radio_log := radio_log s
          ++ [Hw_radio_receive (rx_buffer s) RADIO_RX_BUFFER_SIZE 0] |}).
Proof.
  intros Hinit r. subst r. run_radio. rewrite Hinit. simpl.
  destruct (hw_radio_receive _ _ _ _) as [[[ok rx'] n] h]. simpl.
  rewrite Hinit. reflexivity.
Qed.

Lemma radio_init_exec s :
  exec radio_init s
  = {| radio_initialized := fst (hw_radio_init (platform s));
       radio_link_ok := false;
       tx_buffer := memset (tx_buffer s) x00 RADIO_TX_BUFFER_SIZE;
       rx_buffer := memset (rx_buffer s) x00 RADIO_RX_BUFFER_SIZE;
       platform := snd (hw_radio_init (platform s));
       radio_log := radio_log s ++ [Hw_radio_init] |}.
Proof. run_radio. destruct (hw_radio_init (platform s)). reflexivity. Qed.

Lemma radio_link_status_run s :
  radio_link_status s
  = (fst (hw_radio_link_status (platform s)),
     {| radio_initialized := radio_initialized s;
        radio_link_ok := fst (hw_radio_link_status (platform s));
        tx_buffer := tx_buffer s;
        rx_buffer := rx_buffer s;
        platform := snd (hw_radio_link_status (platform s));
        radio_log := radio_log s ++ [Hw_radio_link_status] |}).
Proof. run_radio. destruct (hw_radio_link_status (platform s)). reflexivity. Qed.

(** C4: [radio_send] turned away by its guard (radio not initialised,
    length 0, or length above 128) returns false and leaves the whole
    state as it was, the hook log included: the send hook is not called.
    Otherwise, for a caller's buffer holding at least [len] bytes, the
    first [len] bytes of the transmit buffer become those of the data and
    the rest of it is kept, the send hook is called once with that buffer
    and that length, and its result is returned. *)
Theorem radio_send_guard_then_forward :
  forall data len s,
    let r := eval (radio_send data len) s in
    let s' := exec (radio_send data len) s in
    ((radio_initialized s = false \/ len = 0 \/ 128 < len) ->
     r = false /\ s' = s /\ radio_log s' = radio_log s
     /\ platform s' = platform s)
    /\ (~ (radio_initialized s = false \/ len = 0 \/ 128 < len) ->
        (N.to_nat len <= length data)%nat ->
        firstn (N.to_nat len) (tx_buffer s') = firstn (N.to_nat len) data
        /\ skipn (N.to_nat len) (tx_buffer s')
           = skipn (N.to_nat len) (tx_buffer s)
        /\ radio_log s' = radio_log s ++ [Hw_radio_send (tx_buffer s') len]
        /\ r = fst (hw_radio_send (tx_buffer s') len (platform s))
        /\ platform s' = snd (hw_radio_send (tx_buffer s') len (platform s))
        /\ radio_initialized s' = radio_initialized s
        /\ radio_link_ok s' = radio_link_ok s
        /\ rx_buffer s' = rx_buffer s).
Proof.
  intros data len s r s'. subst r s'. unfold exec, eval. split.
  - intros Hrej. rewrite (radio_send_rejected data len s Hrej).
    repeat split.
  - intros Hacc Hdata.
    destruct (send_rejected_dec s len) as [Hrej|[Hinit Hlen]];
      [contradiction|].
    rewrite (radio_send_forwarded data len s Hinit Hlen). simpl.
    repeat split.
    + apply firstn_memcpy. exact Hdata.
    + apply skipn_memcpy. exact Hdata.
Qed.

(** C6: [radio_receive] turned away by its guard (radio not
    initialised, or null [out_length]) returns false and leaves the state,
    both buffers included, and the slot as they were.  Otherwise the
    receive hook is called once with the receive buffer, the maximum
    length 128 and a slot already set to 0; the result of the hook is
    returned, and the buffer and the slot are as the hook left them. *)
Theorem radio_receive_guard_then_delegate :
  forall out_length s,
    let r := eval (radio_receive out_length) s in
    let s' := exec (radio_receive out_length) s in
    ((radio_initialized s = false \/ out_length = None) ->
     fst r = false /\ snd r = out_length /\ s' = s
     /\ tx_buffer s' = tx_buffer s /\ rx_buffer s' = rx_buffer s)
    /\ (~ (radio_initialized s = false \/ out_length = None) ->
        let h := hw_radio_receive (rx_buffer s) 128 0 (platform s) in
        radio_log s' = radio_log s ++ [Hw_radio_receive (rx_buffer s) 128 0]
        /\ fst r = fst (fst (fst h))
        /\ snd r = Some (snd (fst h))
        /\ rx_buffer s' = snd (fst (fst h))
        /\ platform s' = snd h
        /\ tx_buffer s' = tx_buffer s
        /\ radio_initialized s' = radio_initialized s
        /\ radio_link_ok s' = radio_link_ok s).
Proof.
  intros out_length s r s'. subst r s'. unfold exec, eval. split.
  - intros Hrej. rewrite (radio_receive_rejected out_length s Hrej).
    repeat split.
  - intros Hacc.
    destruct (receive_rejected_dec s out_length) as [Hrej|[Hinit [v ->]]];
      [contradiction|].
    rewrite (radio_receive_delegated v s Hinit). simpl. repeat split.
Qed.

(** C7: [radio_init] zeroes the first 128 bytes of both buffers (all of
    them, for buffers of the declared size), stores the result of the
    init hook in the initialised flag and sets the link flag to false,
    whatever it was; [radio_link_status] calls the link hook every time,
    stores its result in the link flag and returns it. *)
Theorem radio_init_and_link_status :
  forall s,
    (let s' := exec radio_init s in
     firstn 128 (tx_buffer s') = repeat x00 128
     /\ firstn 128 (rx_buffer s') = repeat x00 128
     /\ (buffers_sized s ->
         tx_buffer s' = repeat x00 128 /\ rx_buffer s' = repeat x00 128)
     /\ radio_initialized s' = fst (hw_radio_init (platform s))
     /\ radio_link_ok s' = false
     /\ radio_log s' = radio_log s ++ [Hw_radio_init])
    /\ (let s' := exec radio_link_status s in
        let fresh := fst (hw_radio_link_status (platform s)) in
        eval radio_link_status s = fresh
        /\ radio_link_ok s' = fresh
        /\ radio_log s' = radio_log s ++ [Hw_radio_link_status]).
Proof.
  intros s. split; cbv zeta.
  - rewrite radio_init_exec.
    cbn [tx_buffer rx_buffer radio_initialized radio_link_ok radio_log].
    split; [exact (firstn_memset (tx_buffer s) x00 RADIO_TX_BUFFER_SIZE)|].
    split; [exact (firstn_memset (rx_buffer s) x00 RADIO_RX_BUFFER_SIZE)|].
    split; [|repeat split].
    intros [Htx Hrx]. split.
    + exact (memset_whole (tx_buffer s) x00 RADIO_TX_BUFFER_SIZE Htx).
    + exact (memset_whole (rx_buffer s) x00 RADIO_RX_BUFFER_SIZE Hrx).
  - unfold exec, eval. rewrite radio_link_status_run. repeat split.
Qed.

(** C10: [radio_send] never changes the receive buffer, [radio_receive]
    never changes the transmit buffer, and [radio_link_status] and
    [radio_is_ready] change neither buffer nor the initialised flag. *)
Theorem radio_buffers_disjointly_owned :
  forall data len out_length s,
    rx_buffer (exec (radio_send data len) s) = rx_buffer s
    /\ tx_buffer (exec (radio_receive out_length) s) = tx_buffer s
    /\ (let s' := exec radio_link_status s in
        tx_buffer s' = tx_buffer s /\ rx_buffer s' = rx_buffer s
        /\ radio_initialized s' = radio_initialized s)
    /\ (let s' := exec radio_is_ready s in
        tx_buffer s' = tx_buffer s /\ rx_buffer s' = rx_buffer s
        /\ radio_initialized s' = radio_initialized s).
Proof.
  intros data len out_length s. unfold exec. repeat split.
  - destruct (send_rejected_dec s len) as [Hrej|[Hinit Hlen]].
    + rewrite (radio_send_rejected data len s Hrej). reflexivity.
    + rewrite (radio_send_forwarded data len s Hinit Hlen). reflexivity.
  - destruct (receive_rejected_dec s out_length) as [Hrej|[Hinit [v ->]]].
    + rewrite (radio_receive_rejected out_length s Hrej). reflexivity.
    + rewrite (radio_receive_delegated v s Hinit). reflexivity.
  - rewrite radio_link_status_run. reflexivity.
  - rewrite radio_link_status_run. reflexivity.
  - rewrite radio_link_status_run. reflexivity.
Qed.

(** C3, as amended: a [radio_send] or [radio_receive] that returns false
    never changes the initialised or link flags.  When the guard turned
    the call away nothing changed at all: no buffer write, no hook call.
    When the send hook failed, the transmit buffer already holds the
    copied data and the receive buffer is untouched; when the receive hook
    failed, the transmit buffer is untouched and the receive buffer and
    the slot are as the hook left them. *)
Theorem radio_failure_keeps_flags :
  forall data len out_length s,
    (let s' := exec (radio_send data len) s in
     eval (radio_send data len) s = false ->
     radio_initialized s' = radio_initialized s
     /\ radio_link_ok s' = radio_link_ok s
     /\ rx_buffer s' = rx_buffer s
     /\ (send_rejected s len -> s' = s)
     /\ (~ send_rejected s len ->
         tx_buffer s' = memcpy (tx_buffer s) data len
         /\ radio_log s' = radio_log s ++ [Hw_radio_send (tx_buffer s') len]))
    /\ (let s' := exec (radio_receive out_length) s in
        let r := eval (radio_receive out_length) s in
        fst r = false ->
        radio_initialized s' = radio_initialized s
        /\ radio_link_ok s' = radio_link_ok s
        /\ tx_buffer s' = tx_buffer s
        /\ (receive_rejected s out_length -> s' = s /\ snd r = out_length)
        /\ (~ receive_rejected s out_length ->
            let h := hw_radio_receive (rx_buffer s) 128 0 (platform s) in
            rx_buffer s' = snd (fst (fst h))
            /\ snd r = Some (snd (fst h)))).
Proof.
  intros data len out_length s. unfold exec, eval. split; cbv zeta.
  - intros _.
    destruct (send_rejected_dec s len) as [Hrej|[Hinit Hlen]].
    + rewrite (radio_send_rejected data len s Hrej). simpl.
      split; [reflexivity|]. split; [reflexivity|]. split; [reflexivity|].
      split; [reflexivity|]. intros Hacc. contradiction.
    + rewrite (radio_send_forwarded data len s Hinit Hlen). simpl.
      split; [reflexivity|]. split; [reflexivity|]. split; [reflexivity|].
      split; [|split; reflexivity].
      intros [Hn|[Hn|Hn]]; [congruence|lia|].
      unfold RADIO_TX_BUFFER_SIZE in *. lia.
  - intros _.
    destruct (receive_rejected_dec s out_length) as [Hrej|[Hinit [v ->]]].
    + rewrite (radio_receive_rejected out_length s Hrej). simpl.
      split; [reflexivity|]. split; [reflexivity|]. split; [reflexivity|].
      split; [split; reflexivity|]. intros Hacc. contradiction.
    + rewrite (radio_receive_delegated v s Hinit). simpl.
      split; [reflexivity|]. split; [reflexivity|]. split; [reflexivity|].
      split; [|split; reflexivity].
      intros [Hn|Hn]; congruence.
Qed.

(** The public operations keep the buffers at their declared size, given
    a receive hook that leaves the buffer it was handed at its size. *)
Lemma buffers_sized_preserved data len out_length s :
  (forall buf n out h,
      length (snd (fst (fst (hw_radio_receive buf n out h)))) = length buf) ->
  (N.to_nat len <= length data)%nat ->
  buffers_sized s ->
  buffers_sized (exec radio_init s)
  /\ buffers_sized (exec radio_link_status s)
  /\ buffers_sized (exec (radio_send data len) s)
  /\ buffers_sized (exec (radio_receive out_length) s).
Proof.
  intros Hhook Hdata [Htx Hrx]. unfold buffers_sized, exec. repeat split.
  - fold (exec radio_init s). rewrite radio_init_exec. simpl tx_buffer.
    rewrite (memset_whole _ _ _ Htx). apply repeat_length.
  - fold (exec radio_init s). rewrite radio_init_exec. simpl rx_buffer.
    rewrite (memset_whole _ _ _ Hrx). apply repeat_length.
  - rewrite radio_link_status_run. exact Htx.
  - rewrite radio_link_status_run. exact Hrx.
  - destruct (send_rejected_dec s len) as [Hrej|[Hinit Hlen]].
    + rewrite (radio_send_rejected data len s Hrej). exact Htx.
    + rewrite (radio_send_forwarded data len s Hinit Hlen). simpl snd.
      cbn [tx_buffer]. rewrite length_memcpy; [exact Htx|exact Hdata|].
      rewrite Htx. unfold RADIO_TX_BUFFER_SIZE in *. lia.
  - destruct (send_rejected_dec s len) as [Hrej|[Hinit Hlen]].
    + rewrite (radio_send_rejected data len s Hrej). exact Hrx.
    + rewrite (radio_send_forwarded data len s Hinit Hlen). exact Hrx.
  - destruct (receive_rejected_dec s out_length) as [Hrej|[Hinit [v ->]]].
    + rewrite (radio_receive_rejected out_length s Hrej). exact Htx.
    + rewrite (radio_receive_delegated v s Hinit). exact Htx.
  - destruct (receive_rejected_dec s out_length) as [Hrej|[Hinit [v ->]]].
    + rewrite (radio_receive_rejected out_length s Hrej). exact Hrx.
    + rewrite (radio_receive_delegated v s Hinit). simpl snd.
      cbn [rx_buffer]. rewrite Hhook. exact Hrx.
Qed.

(** *** Clients: sequences of calls *)

Lemma exec_radio_step op s :
  exec (radio_step op) s
  = match op with
    | Radio_init => exec radio_init s
    | Radio_is_ready => s
    | Radio_link_status => exec radio_link_status s
    | Radio_send data len => exec (radio_send data len) s
    | Radio_receive out_length => exec (radio_receive out_length) s
    | Radio_rx_buffer => s
    end.
Proof.
  destruct op as [| | |data len|out_length|]; unfold radio_step, exec;
    unfold bind at 1.
  - destruct (radio_init s). reflexivity.
  - reflexivity.
  - destruct (radio_link_status s). reflexivity.
  - destruct (radio_send data len s). reflexivity.
  - destruct (radio_receive out_length s). reflexivity.
  - reflexivity.
Qed.

Lemma radio_run_cons op ops s :
  radio_run (op :: ops) s
  = (eval (radio_step op) s :: eval (radio_run ops) (exec (radio_step op) s),
     exec (radio_run ops) (exec (radio_step op) s)).
Proof.
  unfold exec, eval. simpl radio_run. unfold bind at 1.
  destruct (radio_step op s) as [r s1]. unfold bind at 1. simpl.
  destruct (radio_run ops s1). reflexivity.
Qed.

Lemma exec_radio_run_cons op ops s :
  exec (radio_run (op :: ops)) s
  = exec (radio_run ops) (exec (radio_step op) s).
Proof. unfold exec at 1. rewrite radio_run_cons. reflexivity. Qed.

(** A property kept by every allowed public call holds after any sequence
    of allowed calls. *)
Lemma radio_run_invariant (allowed : radio_op -> bool)
  (P : radio_state HW -> Prop) :
  (forall op s, allowed op = true -> P s -> P (exec (radio_step op) s)) ->
  forall ops s, forallb allowed ops = true -> P s -> P (exec (radio_run ops) s).
Proof.
  intros Hstep ops. induction ops as [|op ops IH]; intros s Hall Hs.
  - exact Hs.
  - simpl in Hall. apply andb_prop in Hall. destruct Hall as [Hop Hall].
    rewrite exec_radio_run_cons. apply IH; [exact Hall|].
    apply Hstep; [exact Hop|exact Hs].
Qed.

Lemma exec_radio_send_cases data len s :
  exec (radio_send data len) s = s
  \/ exec (radio_send data len) s
     = {| radio_initialized := radio_initialized s;
          radio_link_ok := radio_link_ok s;
          tx_buffer := memcpy (tx_buffer s) data len;
          rx_buffer := rx_buffer s;
          platform :=
            snd (hw_radio_send (memcpy (tx_buffer s) data len) len
                               (platform s));
          radio_log := radio_log s
            ++ [Hw_radio_send (memcpy (tx_buffer s) data len) len] |}.
Proof.
  unfold exec. destruct (send_rejected_dec s len) as [Hrej|[Hinit Hlen]].
  - left. rewrite (radio_send_rejected data len s Hrej). reflexivity.
  - right. rewrite (radio_send_forwarded data len s Hinit Hlen). reflexivity.
Qed.

Lemma exec_radio_receive_cases out_length s :
  exec (radio_receive out_length) s = s
  \/ exec (radio_receive out_length) s
     = {| radio_initialized := radio_initialized s;
          radio_link_ok := radio_link_ok s;
          tx_buffer := tx_buffer s;
          rx_buffer :=
            snd (fst (fst (hw_radio_receive (rx_buffer s) RADIO_RX_BUFFER_SIZE
                                            0 (platform s))));
          platform :=
            snd (hw_radio_receive (rx_buffer s) RADIO_RX_BUFFER_SIZE 0
                                  (platform s));
          radio_log := radio_log s
            ++ [Hw_radio_receive (rx_buffer s) RADIO_RX_BUFFER_SIZE 0] |}.
Proof.
  unfold exec.
  destruct (receive_rejected_dec s out_length) as [Hrej|[Hinit [v ->]]].
  - left. rewrite (radio_receive_rejected out_length s Hrej). reflexivity.
  - right. rewrite (radio_receive_delegated v s Hinit). reflexivity.
Qed.

Lemma exec_radio_link_status s :
  exec radio_link_status s
  = {| radio_initialized := radio_initialized s;
       radio_link_ok := fst (hw_radio_link_status (platform s));
       tx_buffer := tx_buffer s;
       rx_buffer := rx_buffer s;
       platform := snd (hw_radio_link_status (platform s));
       radio_log := radio_log s ++ [Hw_radio_link_status] |}.
Proof. unfold exec. rewrite radio_link_status_run. reflexivity. Qed.

(** Which static a public call may store into. *)
Lemma radio_step_frame op s :
  (writes_initialized op = false ->
   radio_initialized (exec (radio_step op) s) = radio_initialized s)
  /\ (writes_link_ok op = false ->
      radio_link_ok (exec (radio_step op) s) = radio_link_ok s)
  /\ (writes_tx op = false ->
      tx_buffer (exec (radio_step op) s) = tx_buffer s)
  /\ (writes_rx op = false ->
      rx_buffer (exec (radio_step op) s) = rx_buffer s).
Proof.
  rewrite exec_radio_step.
  destruct op as [| | |data len|out_length|]; simpl;
    repeat split; intros H; try discriminate H; try reflexivity.
  - rewrite exec_radio_link_status. reflexivity.
  - rewrite exec_radio_link_status. reflexivity.
  - rewrite exec_radio_link_status. reflexivity.
  - destruct (exec_radio_send_cases data len s) as [-> | ->]; reflexivity.
  - destruct (exec_radio_send_cases data len s) as [-> | ->]; reflexivity.
  - destruct (exec_radio_send_cases data len s) as [-> | ->]; reflexivity.
  - destruct (exec_radio_receive_cases out_length s) as [-> | ->];
      reflexivity.
  - destruct (exec_radio_receive_cases out_length s) as [-> | ->];
      reflexivity.
  - destruct (exec_radio_receive_cases out_length s) as [-> | ->];
      reflexivity.
Qed.

Lemma radio_run_frame {A} (field : radio_state HW -> A)
  (writes : radio_op -> bool) :
  (forall op s, writes op = false -> field (exec (radio_step op) s) = field s) ->
  forall ops s,
    forallb (fun op => negb (writes op)) ops = true ->
    field (exec (radio_run ops) s) = field s.
Proof.
  intros Hstep ops s Hall.
  apply (radio_run_invariant (fun op => negb (writes op))
           (fun s' => field s' = field s)); [|exact Hall|reflexivity].
  intros op s' Hop Hs'. rewrite Hstep; [exact Hs'|].
  apply negb_true_iff. exact Hop.
Qed.

(** X9: each static has its own writers.  Through any sequence of public
    calls, the initialised flag keeps its value unless [radio_init] is
    called, the link flag unless [radio_init] or [radio_link_status] is, the
    transmit buffer unless [radio_init] or [radio_send] is, and the receive
    buffer, with the view [radio_rx_buffer] gives of it, unless [radio_init]
    or [radio_receive] is. *)
Theorem radio_statics_have_their_writers :
  forall ops s,
    let s' := exec (radio_run ops) s in
    (forallb (fun op => negb (writes_initialized op)) ops = true ->
     radio_initialized s' = radio_initialized s
     /\ eval radio_is_ready s' = eval radio_is_ready s)
    /\ (forallb (fun op => negb (writes_link_ok op)) ops = true ->
        radio_link_ok s' = radio_link_ok s)
    /\ (forallb (fun op => negb (writes_tx op)) ops = true ->
        tx_buffer s' = tx_buffer s)
    /\ (forallb (fun op => negb (writes_rx op)) ops = true ->
        rx_buffer s' = rx_buffer s
        /\ eval radio_rx_buffer s' = eval radio_rx_buffer s).
Proof.
  intros ops s s'. subst s'. split; [|split; [|split]]; intros Hall.
  - assert (H : radio_initialized (exec (radio_run ops) s)
                = radio_initialized s).
    { apply (radio_run_frame radio_initialized writes_initialized);
        [|exact Hall]. intros op s0. apply radio_step_frame. }
    split; exact H.
  - apply (radio_run_frame radio_link_ok writes_link_ok); [|exact Hall].
    intros op s0. apply radio_step_frame.
  - apply (radio_run_frame tx_buffer writes_tx); [|exact Hall].
    intros op s0. apply radio_step_frame.
  - assert (H : rx_buffer (exec (radio_run ops) s) = rx_buffer s).
    { apply (radio_run_frame rx_buffer writes_rx); [|exact Hall].
      intros op s0. apply radio_step_frame. }
    split; exact H.
Qed.

(** X10: after [radio_init], through any sequence of calls other than
    [radio_init], [radio_is_ready] answers what the init hook returned; and
    as long as the link is not polled either, the link flag stays false. *)
Theorem radio_ready_answers_last_init :
  forall ops s,
    forallb (fun op => negb (writes_initialized op)) ops = true ->
    let s' := exec (radio_run ops) (exec radio_init s) in
    eval radio_is_ready s' = fst (hw_radio_init (platform s))
    /\ (forallb (fun op => negb (writes_link_ok op)) ops = true ->
        radio_link_ok s' = false).
Proof.
  intros ops s Hall s'. subst s'. split.
  - change (radio_initialized (exec (radio_run ops) (exec radio_init s))
            = fst (hw_radio_init (platform s))).
    rewrite (radio_run_frame radio_initialized writes_initialized);
      [rewrite radio_init_exec; reflexivity| |exact Hall].
    intros op s0. apply radio_step_frame.
  - intros Hlink.
    rewrite (radio_run_frame radio_link_ok writes_link_ok);
      [rewrite radio_init_exec; reflexivity| |exact Hlink].
    intros op s0. apply radio_step_frame.
Qed.

Lemma radio_step_uninitialised op s :
  needs_ready op = true ->
  radio_initialized s = false ->
  radio_step op s = (Some false, s).
Proof.
  intros Hop Hinit.
  destruct op as [| | |data len|out_length|]; try discriminate Hop;
    unfold radio_step, bind.
  - unfold radio_is_ready, gets, ret. rewrite Hinit. reflexivity.
  - rewrite (radio_send_rejected data len s (or_introl Hinit)). reflexivity.
  - rewrite (radio_receive_rejected out_length s (or_introl Hinit)).
    reflexivity.
Qed.

Lemma radio_run_uninitialised ops s :
  forallb needs_ready ops = true ->
  radio_initialized s = false ->
  radio_run ops s = (map (fun _ => Some false) ops, s).
Proof.
  intros Hall Hinit. induction ops as [|op ops IH]; [reflexivity|].
  simpl in Hall. apply andb_prop in Hall. destruct Hall as [Hop Hall].
  rewrite radio_run_cons. unfold exec, eval.
  rewrite (radio_step_uninitialised op s Hop Hinit). simpl fst. simpl snd.
  rewrite (IH Hall). reflexivity.
Qed.

(** X11: while the radio is not initialised, and in particular after a
    [radio_init] whose hook failed, any sequence of [radio_send],
    [radio_receive] and [radio_is_ready] calls answers false every time and
    leaves the whole state as it was: no buffer is written and no hook is
    called. *)
Theorem radio_uninitialised_is_inert :
  forall ops s,
    forallb needs_ready ops = true ->
    (radio_initialized s = false ->
     radio_run ops s = (map (fun _ => Some false) ops, s))
    /\ (fst (hw_radio_init (platform s)) = false ->
        radio_run ops (exec radio_init s)
        = (map (fun _ => Some false) ops, exec radio_init s)).
Proof.
  intros ops s Hall. split; intros Hinit.
  - apply radio_run_uninitialised; assumption.
  - apply radio_run_uninitialised; [exact Hall|].
    rewrite radio_init_exec. exact Hinit.
Qed.

Lemma radio_step_sized op s :
  (forall buf out h,
      length buf = 128%nat ->
      length (snd (fst (fst (hw_radio_receive buf 128 out h)))) = 128%nat) ->
  caller_ok op = true ->
  buffers_sized s ->
  buffers_sized (exec (radio_step op) s).
Proof.
  intros Hhook Hop [Htx Hrx]. rewrite exec_radio_step.
  destruct op as [| | |data len|out_length|].
  - rewrite radio_init_exec. split; cbn [tx_buffer rx_buffer].
    + rewrite (memset_whole _ _ _ Htx). apply repeat_length.
    + rewrite (memset_whole _ _ _ Hrx). apply repeat_length.
  - split; assumption.
  - rewrite exec_radio_link_status. split; assumption.
  - unfold exec. destruct (send_rejected_dec s len) as [Hrej|[Hinit Hlen]].
    + rewrite (radio_send_rejected data len s Hrej). split; assumption.
    + rewrite (radio_send_forwarded data len s Hinit Hlen).
      split; [|exact Hrx]. cbn [snd tx_buffer]. simpl in Hop.
      apply Nat.leb_le in Hop.
      rewrite length_memcpy; [exact Htx|exact Hop|].
      rewrite Htx. unfold RADIO_TX_BUFFER_SIZE in *. lia.
  - destruct (exec_radio_receive_cases out_length s) as [-> | ->].
    + split; assumption.
    + split; [exact Htx|]. cbn [rx_buffer]. apply Hhook. exact Hrx.
  - split; assumption.
Qed.

(** X12: from power-on, through any sequence of public calls, both buffers
    keep their 128 bytes, provided every [radio_send] is given a buffer of
    at least [length] bytes and the receive hook leaves a 128-byte buffer at
    128 bytes. *)
Theorem radio_buffers_stay_sized :
  (forall buf out h,
      length buf = 128%nat ->
      length (snd (fst (fst (hw_radio_receive buf 128 out h)))) = 128%nat) ->
  forall ops h,
    forallb caller_ok ops = true ->
    buffers_sized (exec (radio_run ops) (radio_power_on h)).
Proof.
  intros Hhook ops h Hall.
  apply (radio_run_invariant caller_ok buffers_sized); [|exact Hall|].
  - intros op s. apply radio_step_sized. exact Hhook.
  - split; apply repeat_length.
Qed.

Lemma skipn_repeat {A} (c : A) (n m : nat) :
  skipn n (repeat c m) = repeat c (m - n).
Proof.
  revert m. induction n as [|n IH]; intros m.
  - rewrite Nat.sub_0_r. reflexivity.
  - destruct m as [|m]; [reflexivity|]. simpl. apply IH.
Qed.

(** X13: the first [radio_send] after a successful [radio_init] hands the
    send hook the data followed by zeroes only: nothing of what the transmit
    buffer held before the init is transmitted. *)
Theorem radio_first_send_is_zero_padded :
  forall data len s,
    buffers_sized s ->
    fst (hw_radio_init (platform s)) = true ->
    0 < len <= 128 ->
    (N.to_nat len <= length data)%nat ->
    let s' := exec (radio_send data len) (exec radio_init s) in
    tx_buffer s'
    = firstn (N.to_nat len) data ++ repeat x00 (128 - N.to_nat len)
    /\ radio_log s'
       = radio_log s ++ [Hw_radio_init; Hw_radio_send (tx_buffer s') len].
Proof.
  intros data len s [Htx _] Hok Hlen Hdata s'. subst s'.
  assert (Hinit : radio_initialized (exec radio_init s) = true)
    by (rewrite radio_init_exec; exact Hok).
  assert (Hrun : exec (radio_send data len) (exec radio_init s)
                 = snd (radio_send data len (exec radio_init s)))
    by reflexivity.
  rewrite (radio_send_forwarded data len (exec radio_init s) Hinit Hlen)
    in Hrun.
  cbn [snd] in Hrun. rewrite Hrun. cbn [tx_buffer radio_log].
  rewrite radio_init_exec. cbn [tx_buffer radio_log].
  rewrite (memset_whole _ _ _ Htx). unfold memcpy. rewrite skipn_repeat.
  split; [reflexivity|]. rewrite <- app_assoc. reflexivity.
Qed.

(** X14: a [radio_send] shorter than the one before it overwrites only its
    own length: the send hook is handed a buffer whose bytes from the second
    length up to the first are still those of the first frame. *)
Theorem radio_shorter_send_keeps_stale_tail :
  forall d1 l1 d2 l2 s,
    radio_initialized s = true ->
    0 < l2 -> l2 <= l1 -> l1 <= 128 ->
    (N.to_nat l1 <= length d1)%nat ->
    (N.to_nat l2 <= length d2)%nat ->
    let s1 := exec (radio_send d1 l1) s in
    let s2 := exec (radio_send d2 l2) s1 in
    tx_buffer s2
    = firstn (N.to_nat l2) d2
      ++ skipn (N.to_nat l2) (firstn (N.to_nat l1) d1)
      ++ skipn (N.to_nat l1) (tx_buffer s)
    /\ radio_log s2
       = radio_log s
         ++ [Hw_radio_send (tx_buffer s1) l1; Hw_radio_send (tx_buffer s2) l2].
Proof.
  intros d1 l1 d2 l2 s Hinit Hpos H21 H1 Hd1 Hd2 s1 s2. subst s2 s1.
  assert (Hl1 : 0 < l1 <= RADIO_TX_BUFFER_SIZE)
    by (unfold RADIO_TX_BUFFER_SIZE; lia).
  assert (Hl2 : 0 < l2 <= RADIO_TX_BUFFER_SIZE)
    by (unfold RADIO_TX_BUFFER_SIZE; lia).
  assert (Hs1 : exec (radio_send d1 l1) s
                = snd (radio_send d1 l1 s)) by reflexivity.
  rewrite (radio_send_forwarded d1 l1 s Hinit Hl1) in Hs1. cbn [snd] in Hs1.
  assert (Hinit1 : radio_initialized (exec (radio_send d1 l1) s) = true)
    by (rewrite Hs1; exact Hinit).
  assert (Hs2 : exec (radio_send d2 l2) (exec (radio_send d1 l1) s)
                = snd (radio_send d2 l2 (exec (radio_send d1 l1) s)))
    by reflexivity.
  rewrite (radio_send_forwarded d2 l2 _ Hinit1 Hl2) in Hs2.
  cbn [snd] in Hs2. rewrite Hs2. cbn [tx_buffer radio_log].
  rewrite Hs1. cbn [tx_buffer radio_log].
  split; [|rewrite <- app_assoc; reflexivity].
  unfold memcpy. rewrite skipn_app, length_firstn.
  replace (N.to_nat l2 - Nat.min (N.to_nat l1) (length d1))%nat with 0%nat
    by lia.
  reflexivity.
Qed.

Lemma radio_step_log op s :
  exists calls,
    radio_log (exec (radio_step op) s) = radio_log s ++ calls
    /\ (length calls <= 1)%nat.
Proof.
  rewrite exec_radio_step. destruct op as [| | |data len|out_length|].
  - rewrite radio_init_exec. eexists. split; [reflexivity|simpl; lia].
  - exists []. split; [symmetry; apply app_nil_r|simpl; lia].
  - rewrite exec_radio_link_status. eexists.
    split; [reflexivity|simpl; lia].
  - destruct (exec_radio_send_cases data len s) as [-> | ->].
    + exists []. split; [symmetry; apply app_nil_r|simpl; lia].
    + eexists. split; [reflexivity|simpl; lia].
  - destruct (exec_radio_receive_cases out_length s) as [-> | ->].
    + exists []. split; [symmetry; apply app_nil_r|simpl; lia].
    + eexists. split; [reflexivity|simpl; lia].
  - exists []. split; [symmetry; apply app_nil_r|simpl; lia].
Qed.

(** X15: every public call makes at most one hook call: a sequence of
    public calls adds at most as many hook calls as it has calls. *)
Theorem radio_one_hook_call_per_call :
  forall ops s,
    exists calls,
      radio_log (exec (radio_run ops) s) = radio_log s ++ calls
      /\ (length calls <= length ops)%nat.
Proof.
  intros ops. induction ops as [|op ops IH]; intros s.
  - exists []. split; [symmetry; apply app_nil_r|simpl; lia].
  - rewrite exec_radio_run_cons.
    destruct (radio_step_log op s) as (c1 & Hc1 & Hn1).
    destruct (IH (exec (radio_step op) s)) as (c2 & Hc2 & Hn2).
    exists (c1 ++ c2). split.
    + rewrite Hc2, Hc1, app_assoc. reflexivity.
    + rewrite length_app. simpl. lia.
Qed.

(** X16: after a [radio_receive] that reached the hook, [radio_rx_buffer]
    shows the bytes the hook left, and keeps showing them through any
    sequence of calls other than [radio_receive] and [radio_init]. *)
Theorem radio_rx_view_holds_last_frame :
  forall v ops s,
    radio_initialized s = true ->
    forallb (fun op => negb (writes_rx op)) ops = true ->
    eval radio_rx_buffer
         (exec (radio_run ops) (exec (radio_receive (Some v)) s))
    = snd (fst (fst (hw_radio_receive (rx_buffer s) 128 0 (platform s)))).
Proof.
  intros v ops s Hinit Hall.
  change (rx_buffer (exec (radio_run ops) (exec (radio_receive (Some v)) s))
          = snd (fst (fst (hw_radio_receive (rx_buffer s) 128 0
                                            (platform s))))).
  rewrite (radio_run_frame rx_buffer writes_rx); [| |exact Hall].
  - unfold exec. rewrite (radio_receive_delegated v s Hinit). reflexivity.
  - intros op s0. apply radio_step_frame.
Qed.

End Facts.

(** *** On the bench *)

Lemma bench_ready_sized : buffers_sized bench_ready.
Proof. split; reflexivity. Qed.

(** C3, refuted as stated: on an initialised radio whose send hook fails,
    [radio_send] of one byte returns false and yet the transmit buffer has
    changed. *)
Lemma radio_send_hook_failure_writes_tx :
  eval (radio_send [x01] 1) bench_ready = false
  /\ tx_buffer (exec (radio_send [x01] 1) bench_ready)
     <> tx_buffer bench_ready
  /\ exec (radio_send [x01] 1) bench_ready <> bench_ready.
Proof.
  split; [reflexivity|].
  assert (Htx : tx_buffer (exec (radio_send [x01] 1) bench_ready)
                <> tx_buffer bench_ready).
  { intros Heq. apply (f_equal (hd x00)) in Heq. vm_compute in Heq.
    discriminate Heq. }
  split; [exact Htx|].
  intros Heq. apply Htx. rewrite Heq. reflexivity.
Qed.

Lemma radio_failure_keeps_flags_witness :
  let s' := exec (radio_send [x01] 1) bench_ready in
  eval (radio_send [x01] 1) bench_ready = false
  /\ radio_initialized s' = radio_initialized bench_ready
  /\ radio_link_ok s' = radio_link_ok bench_ready
  /\ rx_buffer s' = rx_buffer bench_ready.
Proof.
  intros s'.
  assert (Hfail : eval (radio_send [x01] 1) bench_ready = false)
    by reflexivity.
  split; [exact Hfail|].
  destruct (radio_failure_keeps_flags [x01] 1 None bench_ready)
    as [Hsend _].
  destruct (Hsend Hfail) as (Hi & Hl & Hrx & _).
  split; [exact Hi|]. split; [exact Hl|exact Hrx].
Defined.

Lemma radio_send_guard_then_forward_witness :
  let data := [x41; x42; x43] in
  let s' := exec (radio_send data 3) bench_ready in
  ~ (radio_initialized bench_ready = false \/ 3 = 0 \/ 128 < 3)
  /\ (N.to_nat 3 <= length data)%nat
  /\ firstn 3 (tx_buffer s') = data
  /\ radio_log s' = radio_log bench_ready ++ [Hw_radio_send (tx_buffer s') 3]
  /\ exec (radio_send data 0) bench_ready = bench_ready
  /\ exec (radio_send data 129) bench_ready = bench_ready.
Proof.
  intros data s'.
  assert (Hacc : ~ (radio_initialized bench_ready = false
                    \/ 3 = 0 \/ 128 < 3)).
  { intros [H|[H|H]]; [discriminate H|discriminate H|].
    vm_compute in H. discriminate H. }
  assert (Hdata : (N.to_nat 3 <= length data)%nat) by (vm_compute; lia).
  destruct (radio_send_guard_then_forward data 3 bench_ready) as [_ Hfwd].
  destruct (Hfwd Hacc Hdata) as (Hfirst & _ & Hlog & _).
  destruct (radio_send_guard_then_forward data 0 bench_ready) as [Hrej0 _].
  destruct (radio_send_guard_then_forward data 129 bench_ready) as [Hrej1 _].
  split; [exact Hacc|]. split; [exact Hdata|].
  split; [exact Hfirst|]. split; [exact Hlog|]. split.
  - apply Hrej0. right. left. reflexivity.
  - apply Hrej1. right. right. reflexivity.
Defined.

Lemma radio_receive_guard_then_delegate_witness :
  let r := eval (radio_receive (Some 77)) bench_ready in
  let s' := exec (radio_receive (Some 77)) bench_ready in
  ~ (radio_initialized bench_ready = false \/ Some 77 = None)
  /\ r = (true, Some 2)
  /\ firstn 2 (rx_buffer s') = [x48; x49]
  /\ radio_log s'
     = radio_log bench_ready ++ [Hw_radio_receive (rx_buffer bench_ready) 128 0]
  /\ radio_receive None bench_ready = ((false, None), bench_ready).
Proof.
  intros r s'.
  assert (Hacc : ~ (radio_initialized bench_ready = false \/ Some 77 = None))
    by (intros [H|H]; discriminate H).
  destruct (radio_receive_guard_then_delegate (Some 77) bench_ready)
    as [_ Hdel].
  destruct (Hdel Hacc) as (Hlog & Hok & Hn & Hrx & _).
  destruct (radio_receive_guard_then_delegate None bench_ready)
    as [Hrej _].
  destruct (Hrej (or_intror eq_refl)) as (Hf & Hs & Hst & _).
  split; [exact Hacc|]. split; [|split; [|split]].
  - subst r. apply injective_projections; [exact Hok|exact Hn].
  - subst s'. rewrite Hrx. reflexivity.
  - exact Hlog.
  - apply injective_projections; [|exact Hst].
    apply injective_projections; [exact Hf|exact Hs].
Defined.

Lemma radio_init_and_link_status_witness :
  let dirty := exec (radio_receive (Some 0)) bench_ready in
  let s' := exec radio_init (exec radio_link_status dirty) in
  buffers_sized (exec radio_link_status dirty)
  /\ radio_link_ok (exec radio_link_status dirty) = true
  /\ tx_buffer s' = repeat x00 128
  /\ rx_buffer s' = repeat x00 128
  /\ radio_link_ok s' = false.
Proof.
  intros dirty s'.
  assert (Hsized : buffers_sized (exec radio_link_status dirty))
    by (split; reflexivity).
  destruct (radio_init_and_link_status (exec radio_link_status dirty))
    as [(_ & _ & Hzero & _ & Hlink & _) _].
  destruct (radio_init_and_link_status dirty) as [_ (_ & Hup & _)].
  destruct (Hzero Hsized) as [Htx Hrx].
  split; [exact Hsized|]. split; [exact Hup|].
  split; [exact Htx|]. split; [exact Hrx|exact Hlink].
Defined.

(** *** Clients on the bench *)

Lemma radio_statics_have_their_writers_witness :
  let ops := [Radio_is_ready; Radio_link_status; Radio_send [x41] 1;
              Radio_rx_buffer] in
  let s' := exec (radio_run ops) bench_ready in
  forallb (fun op => negb (writes_initialized op)) ops = true
  /\ forallb (fun op => negb (writes_rx op)) ops = true
  /\ radio_initialized s' = radio_initialized bench_ready
  /\ rx_buffer s' = rx_buffer bench_ready.
Proof.
  intros ops s'.
  destruct (radio_statics_have_their_writers ops bench_ready)
    as (Hinit & _ & _ & Hrx).
  split; [reflexivity|]. split; [reflexivity|].
  split; [exact (proj1 (Hinit eq_refl))|exact (proj1 (Hrx eq_refl))].
Defined.

Lemma radio_ready_answers_last_init_witness :
  let ops := [Radio_send [x41] 1; Radio_receive (Some 0); Radio_rx_buffer] in
  let s' := exec (radio_run ops) (exec radio_init (radio_power_on bench)) in
  forallb (fun op => negb (writes_initialized op)) ops = true
  /\ forallb (fun op => negb (writes_link_ok op)) ops = true
  /\ eval radio_is_ready s' = true
  /\ radio_link_ok s' = false.
Proof.
  intros ops s'.
  destruct (radio_ready_answers_last_init ops (radio_power_on bench) eq_refl)
    as [Hready Hlink].
  split; [reflexivity|]. split; [reflexivity|].
  split; [exact Hready|exact (Hlink eq_refl)].
Defined.

Lemma radio_uninitialised_is_inert_witness :
  let ops := [Radio_send [x41] 1; Radio_receive (Some 0); Radio_is_ready] in
  let cold := radio_power_on bench in
  let failed := exec radio_init (radio_power_on bench_faulty) in
  forallb needs_ready ops = true
  /\ radio_initialized cold = false
  /\ fst (hw_radio_init (platform (radio_power_on bench_faulty))) = false
  /\ radio_run ops cold = ([Some false; Some false; Some false], cold)
  /\ radio_run ops failed = ([Some false; Some false; Some false], failed).
Proof.
  intros ops cold failed.
  split; [reflexivity|]. split; [reflexivity|]. split; [reflexivity|]. split.
  - exact (proj1 (radio_uninitialised_is_inert ops cold eq_refl) eq_refl).
  - exact (proj2 (radio_uninitialised_is_inert
                    ops (radio_power_on bench_faulty) eq_refl) eq_refl).
Defined.

(** The scripted receive hook writes inside the buffer it is handed. *)
Lemma mock_receive_keeps_size (buf : list byte) (out : N) (h : mock) :
  length buf = 128%nat ->
  length (snd (fst (fst (hw_radio_receive buf 128 out h)))) = 128%nat.
Proof.
  intros Hbuf. simpl. rewrite length_memcpy; [exact Hbuf| |]; lia.
Qed.

Lemma radio_buffers_stay_sized_witness :
  let ops := [Radio_send [x41] 1; Radio_init; Radio_receive (Some 0);
              Radio_send [x41; x42] 2; Radio_link_status;
              Radio_send [] 0; Radio_receive None] in
  forallb caller_ok ops = true
  /\ buffers_sized (exec (radio_run ops) (radio_power_on bench)).
Proof.
  intros ops. split; [reflexivity|].
  exact (radio_buffers_stay_sized mock_receive_keeps_size ops bench eq_refl).
Defined.

Lemma radio_first_send_is_zero_padded_witness :
  let data := [x41; x42; x43] in
  let dirty := exec (radio_send [xff; xff; xff; xff] 4) bench_ready in
  let s' := exec (radio_send data 3) (exec radio_init dirty) in
  buffers_sized dirty
  /\ fst (hw_radio_init (platform dirty)) = true
  /\ 0 < 3 <= 128
  /\ (N.to_nat 3 <= length data)%nat
  /\ tx_buffer s' = data ++ repeat x00 125.
Proof.
  intros data dirty s'.
  assert (Hsized : buffers_sized dirty) by (split; reflexivity).
  assert (Hok : fst (hw_radio_init (platform dirty)) = true) by reflexivity.
  assert (Hlen : 0 < 3 <= 128) by lia.
  assert (Hdata : (N.to_nat 3 <= length data)%nat) by (vm_compute; lia).
  split; [exact Hsized|]. split; [exact Hok|]. split; [exact Hlen|].
  split; [exact Hdata|].
  exact (proj1 (radio_first_send_is_zero_padded
                  data 3 dirty Hsized Hok Hlen Hdata)).
Defined.

Lemma radio_shorter_send_keeps_stale_tail_witness :
  let d1 := [x41; x42; x43] in
  let d2 := [x5a] in
  let s2 := exec (radio_send d2 1) (exec (radio_send d1 3) bench_ready) in
  radio_initialized bench_ready = true
  /\ 0 < 1 /\ 1 <= 3 /\ 3 <= 128
  /\ (N.to_nat 3 <= length d1)%nat
  /\ (N.to_nat 1 <= length d2)%nat
  /\ tx_buffer s2 = [x5a; x42; x43] ++ repeat x00 125.
Proof.
  intros d1 d2 s2.
  assert (Hinit : radio_initialized bench_ready = true) by reflexivity.
  assert (H0 : 0 < 1) by lia.
  assert (H1 : 1 <= 3) by lia.
  assert (H3 : 3 <= 128) by lia.
  assert (Hd1 : (N.to_nat 3 <= length d1)%nat) by (vm_compute; lia).
  assert (Hd2 : (N.to_nat 1 <= length d2)%nat) by (vm_compute; lia).
  split; [exact Hinit|]. split; [exact H0|]. split; [exact H1|].
  split; [exact H3|]. split; [exact Hd1|]. split; [exact Hd2|].
  exact (proj1 (radio_shorter_send_keeps_stale_tail
                  d1 3 d2 1 bench_ready Hinit H0 H1 H3 Hd1 Hd2)).
Defined.

Lemma radio_rx_view_holds_last_frame_witness :
  let ops := [Radio_send [x41] 1; Radio_link_status; Radio_is_ready] in
  let s' := exec (radio_run ops) (exec (radio_receive (Some 9)) bench_ready) in
  radio_initialized bench_ready = true
  /\ forallb (fun op => negb (writes_rx op)) ops = true
  /\ eval radio_rx_buffer s' = [x48; x49] ++ repeat x00 126.
Proof.
  intros ops s'.
  split; [reflexivity|]. split; [reflexivity|].
  exact (radio_rx_view_holds_last_frame 9 ops bench_ready eq_refl eq_refl).
Defined.

End RadioProps.
